(** * The input-event dispatcher of the recovery console (ui.cpp)

    A shallow embedding of [RecoveryUI] from [ui.cpp]: the key queue shared
    by the event thread and the foreground waiter, the key pipeline
    ([process_key], [CheckKey]), the swipe recogniser ([process_swipe]),
    the trackball accumulator ([input_callback]), the foreground waiter
    ([WaitKey]) and the control-socket command parser ([string_split],
    [message_socket_client_event]).

    The object's fields become one record that every method takes and
    returns.  Calls into collaborators (the renderer, the dialog, vold,
    the condition variable, the policy hooks) are appended to the [calls]
    field in program order, and so is each call of a policy hook; the
    answers of the collaborators that the code
    queries ([DialogShowing], [DialogDismissable], [IsTextVisible]) are
    fields of the record that the methods of this file only read.  Every
    subscript applied to [key_pressed] and [key_queue] is appended to the
    [accesses] field, so that statements about array bounds can be made
    about the code as it is written. *)

From Stdlib Require Import ZArith Bool List String Ascii Lia.
From Stdlib Require Import Floats.SpecFloat.
From stdpp Require Import base list.
Import ListNotations.

Local Open Scope Z_scope.

(** ** Machine integers *)

(** [int] is 32 bits wide; arithmetic on it is written with its wrap-around. *)
Definition INT_MIN : Z := - 2 ^ 31.
Definition INT_MAX : Z := 2 ^ 31 - 1.

Definition wrap32 (z : Z) : Z := (z + 2 ^ 31) mod 2 ^ 32 - 2 ^ 31.

(** ** Constants of <linux/input.h> and <errno.h> *)

Definition EV_SYN : Z := 0.
Definition EV_KEY : Z := 1.
Definition EV_REL : Z := 2.
Definition EV_ABS : Z := 3.
Definition SYN_REPORT : Z := 0.
Definition SYN_MT_REPORT : Z := 2.
Definition REL_Y : Z := 1.
Definition ABS_MT_POSITION_X : Z := 53.   (* 0x35 *)
Definition ABS_MT_POSITION_Y : Z := 54.   (* 0x36 *)
Definition KEY_UP : Z := 103.
Definition KEY_DOWN : Z := 108.
Definition KEY_VOLUMEDOWN : Z := 114.
Definition KEY_VOLUMEUP : Z := 115.
Definition KEY_POWER : Z := 116.
Definition KEY_BACK : Z := 158.
Definition BTN_TOUCH : Z := 330.          (* 0x14a *)
Definition KEY_MAX : Z := 767.            (* 0x2ff *)
Definition ETIMEDOUT : Z := 110.
Definition POLLIN : Z := 1.

Definition UI_WAIT_KEY_TIMEOUT_SEC : Z := 120.

(** [struct input_event] without its time stamp: [type] and [code] are
    unsigned 16-bit fields, [value] is a signed 32-bit one. *)
Record input_event : Type := mkEvent {
  ev_type : Z;
  ev_code : Z;
  ev_value : Z
}.

(** ** Arrays *)

(** Modelled from the spec: [ui.h] is not among the sources; it declares the
    two arrays of the object.  The key queue has the capacity the spec names
    (256), and the key state has one entry per key code in [0, KEY_MAX]. *)
Definition queue_max : Z := 256.
Definition key_pressed_size : Z := KEY_MAX + 1.

(** A C array of [Z.of_nat (length a)] elements.  A subscript outside the
    array is undefined behaviour in C; here the store is dropped and the
    load yields 0, and the callers record the subscript in [accesses]. *)
Definition in_bounds (a : list Z) (i : Z) : bool :=
  (0 <=? i) && (i <? Z.of_nat (length a)).

Definition array_store (a : list Z) (i v : Z) : list Z :=
  if in_bounds a i then <[Z.to_nat i := v]> a else a.

Definition array_load (a : list Z) (i : Z) : Z :=
  if in_bounds a i then default 0 (a !! Z.to_nat i) else 0.

(** ** The object *)

(** The calls the methods make to collaborators (the condition variable,
    the dialog, the renderer, vold, the event multiplexer) and to the
    overridable policy hooks, in the order the code makes them. *)
Inductive call : Type :=
  | pthread_cond_signal
  | pthread_create_time_key (key_code count : Z)
  | DialogShowInfo (text : string)
  | DialogDismiss
  | NextCheckKeyIsLong (is_long_press : bool)
  | CheckKey_called (key : Z)
  | KeyLongPress (key : Z)
  | ShowText (visible : bool)
  | vold_unmount_all
  | android_reboot
  | ensure_path_mounted (path : string)
  | Print (text : string)
  | ev_del_fd
  | client_Close
  | open_android_usb_state
  | ev_init
  | message_socket_ServerInit
  | ev_add_fd_message_socket
  | pthread_create_input_thread.

(** A subscript applied to one of the two arrays. *)
Inductive access : Type :=
  | at_key_pressed (i : Z)
  | at_key_queue (i : Z).

(** The fields of [RecoveryUI] that [ui.cpp] uses, then the answers of
    [DialogShowing()], [DialogDismissable()] and [IsTextVisible()], then
    the two logs.  An element of [key_pressed] holds the value stored in it
    (the kernel sends 0, 1 or 2), and reads as pressed when it is not 0. *)
Record RecoveryUI : Type := mkUI {
  key_queue : list Z;
  key_queue_len : Z;
  key_pressed : list Z;
  key_last_down : Z;
  key_long_press : bool;
  key_down_count : Z;
  rel_sum : Z;
  consecutive_power_keys : Z;
  consecutive_alternate_keys : Z;
  last_key : Z;
  in_touch : Z;
  touch_x : Z;
  touch_y : Z;
  old_x : Z;
  old_y : Z;
  diff_x : Z;
  diff_y : Z;
  min_x_swipe_px : Z;
  min_y_swipe_px : Z;
  max_x_touch : Z;
  max_y_touch : Z;
  mt_count : Z;
  v_changed : Z;
  dialog_showing : bool;
  dialog_dismissable : bool;
  text_visible : bool;
  calls : list call;
  accesses : list access
}.

Definition set_key_queue (v : list Z) (st : RecoveryUI) : RecoveryUI :=
  mkUI v (key_queue_len st) (key_pressed st) (key_last_down st)
    (key_long_press st) (key_down_count st) (rel_sum st)
    (consecutive_power_keys st) (consecutive_alternate_keys st) (last_key st)
    (in_touch st) (touch_x st) (touch_y st) (old_x st) (old_y st) (diff_x st)
    (diff_y st) (min_x_swipe_px st) (min_y_swipe_px st) (max_x_touch st)
    (max_y_touch st) (mt_count st) (v_changed st) (dialog_showing st)
    (dialog_dismissable st) (text_visible st) (calls st) (accesses st).

Definition set_key_queue_len (v : Z) (st : RecoveryUI) : RecoveryUI :=
  mkUI (key_queue st) v (key_pressed st) (key_last_down st)
    (key_long_press st) (key_down_count st) (rel_sum st)
    (consecutive_power_keys st) (consecutive_alternate_keys st) (last_key st)
    (in_touch st) (touch_x st) (touch_y st) (old_x st) (old_y st) (diff_x st)
    (diff_y st) (min_x_swipe_px st) (min_y_swipe_px st) (max_x_touch st)
    (max_y_touch st) (mt_count st) (v_changed st) (dialog_showing st)
    (dialog_dismissable st) (text_visible st) (calls st) (accesses st).

Definition set_key_pressed (v : list Z) (st : RecoveryUI) : RecoveryUI :=
  mkUI (key_queue st) (key_queue_len st) v (key_last_down st)
    (key_long_press st) (key_down_count st) (rel_sum st)
    (consecutive_power_keys st) (consecutive_alternate_keys st) (last_key st)
    (in_touch st) (touch_x st) (touch_y st) (old_x st) (old_y st) (diff_x st)
    (diff_y st) (min_x_swipe_px st) (min_y_swipe_px st) (max_x_touch st)
    (max_y_touch st) (mt_count st) (v_changed st) (dialog_showing st)
    (dialog_dismissable st) (text_visible st) (calls st) (accesses st).

Definition set_key_last_down (v : Z) (st : RecoveryUI) : RecoveryUI :=
  mkUI (key_queue st) (key_queue_len st) (key_pressed st) v
    (key_long_press st) (key_down_count st) (rel_sum st)
    (consecutive_power_keys st) (consecutive_alternate_keys st) (last_key st)
    (in_touch st) (touch_x st) (touch_y st) (old_x st) (old_y st) (diff_x st)
    (diff_y st) (min_x_swipe_px st) (min_y_swipe_px st) (max_x_touch st)
    (max_y_touch st) (mt_count st) (v_changed st) (dialog_showing st)
    (dialog_dismissable st) (text_visible st) (calls st) (accesses st).

Definition set_key_long_press (v : bool) (st : RecoveryUI) : RecoveryUI :=
  mkUI (key_queue st) (key_queue_len st) (key_pressed st) (key_last_down st) v
    (key_down_count st) (rel_sum st) (consecutive_power_keys st)
    (consecutive_alternate_keys st) (last_key st) (in_touch st) (touch_x st)
    (touch_y st) (old_x st) (old_y st) (diff_x st) (diff_y st)
    (min_x_swipe_px st) (min_y_swipe_px st) (max_x_touch st) (max_y_touch st)
    (mt_count st) (v_changed st) (dialog_showing st) (dialog_dismissable st)
    (text_visible st) (calls st) (accesses st).

Definition set_key_down_count (v : Z) (st : RecoveryUI) : RecoveryUI :=
  mkUI (key_queue st) (key_queue_len st) (key_pressed st) (key_last_down st)
    (key_long_press st) v (rel_sum st) (consecutive_power_keys st)
    (consecutive_alternate_keys st) (last_key st) (in_touch st) (touch_x st)
    (touch_y st) (old_x st) (old_y st) (diff_x st) (diff_y st)
    (min_x_swipe_px st) (min_y_swipe_px st) (max_x_touch st) (max_y_touch st)
    (mt_count st) (v_changed st) (dialog_showing st) (dialog_dismissable st)
    (text_visible st) (calls st) (accesses st).

Definition set_rel_sum (v : Z) (st : RecoveryUI) : RecoveryUI :=
  mkUI (key_queue st) (key_queue_len st) (key_pressed st) (key_last_down st)
    (key_long_press st) (key_down_count st) v (consecutive_power_keys st)
    (consecutive_alternate_keys st) (last_key st) (in_touch st) (touch_x st)
    (touch_y st) (old_x st) (old_y st) (diff_x st) (diff_y st)
    (min_x_swipe_px st) (min_y_swipe_px st) (max_x_touch st) (max_y_touch st)
    (mt_count st) (v_changed st) (dialog_showing st) (dialog_dismissable st)
    (text_visible st) (calls st) (accesses st).

Definition set_consecutive_power_keys (v : Z) (st : RecoveryUI) : RecoveryUI :=
  mkUI (key_queue st) (key_queue_len st) (key_pressed st) (key_last_down st)
    (key_long_press st) (key_down_count st) (rel_sum st) v
    (consecutive_alternate_keys st) (last_key st) (in_touch st) (touch_x st)
    (touch_y st) (old_x st) (old_y st) (diff_x st) (diff_y st)
    (min_x_swipe_px st) (min_y_swipe_px st) (max_x_touch st) (max_y_touch st)
    (mt_count st) (v_changed st) (dialog_showing st) (dialog_dismissable st)
    (text_visible st) (calls st) (accesses st).

Definition set_consecutive_alternate_keys (v : Z) (st : RecoveryUI)
    : RecoveryUI :=
  mkUI (key_queue st) (key_queue_len st) (key_pressed st) (key_last_down st)
    (key_long_press st) (key_down_count st) (rel_sum st)
    (consecutive_power_keys st) v (last_key st) (in_touch st) (touch_x st)
    (touch_y st) (old_x st) (old_y st) (diff_x st) (diff_y st)
    (min_x_swipe_px st) (min_y_swipe_px st) (max_x_touch st) (max_y_touch st)
    (mt_count st) (v_changed st) (dialog_showing st) (dialog_dismissable st)
    (text_visible st) (calls st) (accesses st).

Definition set_last_key (v : Z) (st : RecoveryUI) : RecoveryUI :=
  mkUI (key_queue st) (key_queue_len st) (key_pressed st) (key_last_down st)
    (key_long_press st) (key_down_count st) (rel_sum st)
    (consecutive_power_keys st) (consecutive_alternate_keys st) v
    (in_touch st) (touch_x st) (touch_y st) (old_x st) (old_y st) (diff_x st)
    (diff_y st) (min_x_swipe_px st) (min_y_swipe_px st) (max_x_touch st)
    (max_y_touch st) (mt_count st) (v_changed st) (dialog_showing st)
    (dialog_dismissable st) (text_visible st) (calls st) (accesses st).

Definition set_in_touch (v : Z) (st : RecoveryUI) : RecoveryUI :=
  mkUI (key_queue st) (key_queue_len st) (key_pressed st) (key_last_down st)
    (key_long_press st) (key_down_count st) (rel_sum st)
    (consecutive_power_keys st) (consecutive_alternate_keys st) (last_key st)
    v (touch_x st) (touch_y st) (old_x st) (old_y st) (diff_x st) (diff_y st)
    (min_x_swipe_px st) (min_y_swipe_px st) (max_x_touch st) (max_y_touch st)
    (mt_count st) (v_changed st) (dialog_showing st) (dialog_dismissable st)
    (text_visible st) (calls st) (accesses st).

Definition set_touch_x (v : Z) (st : RecoveryUI) : RecoveryUI :=
  mkUI (key_queue st) (key_queue_len st) (key_pressed st) (key_last_down st)
    (key_long_press st) (key_down_count st) (rel_sum st)
    (consecutive_power_keys st) (consecutive_alternate_keys st) (last_key st)
    (in_touch st) v (touch_y st) (old_x st) (old_y st) (diff_x st) (diff_y st)
    (min_x_swipe_px st) (min_y_swipe_px st) (max_x_touch st) (max_y_touch st)
    (mt_count st) (v_changed st) (dialog_showing st) (dialog_dismissable st)
    (text_visible st) (calls st) (accesses st).

Definition set_touch_y (v : Z) (st : RecoveryUI) : RecoveryUI :=
  mkUI (key_queue st) (key_queue_len st) (key_pressed st) (key_last_down st)
    (key_long_press st) (key_down_count st) (rel_sum st)
    (consecutive_power_keys st) (consecutive_alternate_keys st) (last_key st)
    (in_touch st) (touch_x st) v (old_x st) (old_y st) (diff_x st) (diff_y st)
    (min_x_swipe_px st) (min_y_swipe_px st) (max_x_touch st) (max_y_touch st)
    (mt_count st) (v_changed st) (dialog_showing st) (dialog_dismissable st)
    (text_visible st) (calls st) (accesses st).

Definition set_old_x (v : Z) (st : RecoveryUI) : RecoveryUI :=
  mkUI (key_queue st) (key_queue_len st) (key_pressed st) (key_last_down st)
    (key_long_press st) (key_down_count st) (rel_sum st)
    (consecutive_power_keys st) (consecutive_alternate_keys st) (last_key st)
    (in_touch st) (touch_x st) (touch_y st) v (old_y st) (diff_x st)
    (diff_y st) (min_x_swipe_px st) (min_y_swipe_px st) (max_x_touch st)
    (max_y_touch st) (mt_count st) (v_changed st) (dialog_showing st)
    (dialog_dismissable st) (text_visible st) (calls st) (accesses st).

Definition set_old_y (v : Z) (st : RecoveryUI) : RecoveryUI :=
  mkUI (key_queue st) (key_queue_len st) (key_pressed st) (key_last_down st)
    (key_long_press st) (key_down_count st) (rel_sum st)
    (consecutive_power_keys st) (consecutive_alternate_keys st) (last_key st)
    (in_touch st) (touch_x st) (touch_y st) (old_x st) v (diff_x st)
    (diff_y st) (min_x_swipe_px st) (min_y_swipe_px st) (max_x_touch st)
    (max_y_touch st) (mt_count st) (v_changed st) (dialog_showing st)
    (dialog_dismissable st) (text_visible st) (calls st) (accesses st).

Definition set_diff_x (v : Z) (st : RecoveryUI) : RecoveryUI :=
  mkUI (key_queue st) (key_queue_len st) (key_pressed st) (key_last_down st)
    (key_long_press st) (key_down_count st) (rel_sum st)
    (consecutive_power_keys st) (consecutive_alternate_keys st) (last_key st)
    (in_touch st) (touch_x st) (touch_y st) (old_x st) (old_y st) v
    (diff_y st) (min_x_swipe_px st) (min_y_swipe_px st) (max_x_touch st)
    (max_y_touch st) (mt_count st) (v_changed st) (dialog_showing st)
    (dialog_dismissable st) (text_visible st) (calls st) (accesses st).

Definition set_diff_y (v : Z) (st : RecoveryUI) : RecoveryUI :=
  mkUI (key_queue st) (key_queue_len st) (key_pressed st) (key_last_down st)
    (key_long_press st) (key_down_count st) (rel_sum st)
    (consecutive_power_keys st) (consecutive_alternate_keys st) (last_key st)
    (in_touch st) (touch_x st) (touch_y st) (old_x st) (old_y st) (diff_x st)
    v (min_x_swipe_px st) (min_y_swipe_px st) (max_x_touch st)
    (max_y_touch st) (mt_count st) (v_changed st) (dialog_showing st)
    (dialog_dismissable st) (text_visible st) (calls st) (accesses st).

Definition set_min_x_swipe_px (v : Z) (st : RecoveryUI) : RecoveryUI :=
  mkUI (key_queue st) (key_queue_len st) (key_pressed st) (key_last_down st)
    (key_long_press st) (key_down_count st) (rel_sum st)
    (consecutive_power_keys st) (consecutive_alternate_keys st) (last_key st)
    (in_touch st) (touch_x st) (touch_y st) (old_x st) (old_y st) (diff_x st)
    (diff_y st) v (min_y_swipe_px st) (max_x_touch st) (max_y_touch st)
    (mt_count st) (v_changed st) (dialog_showing st) (dialog_dismissable st)
    (text_visible st) (calls st) (accesses st).

Definition set_min_y_swipe_px (v : Z) (st : RecoveryUI) : RecoveryUI :=
  mkUI (key_queue st) (key_queue_len st) (key_pressed st) (key_last_down st)
    (key_long_press st) (key_down_count st) (rel_sum st)
    (consecutive_power_keys st) (consecutive_alternate_keys st) (last_key st)
    (in_touch st) (touch_x st) (touch_y st) (old_x st) (old_y st) (diff_x st)
    (diff_y st) (min_x_swipe_px st) v (max_x_touch st) (max_y_touch st)
    (mt_count st) (v_changed st) (dialog_showing st) (dialog_dismissable st)
    (text_visible st) (calls st) (accesses st).

Definition set_max_x_touch (v : Z) (st : RecoveryUI) : RecoveryUI :=
  mkUI (key_queue st) (key_queue_len st) (key_pressed st) (key_last_down st)
    (key_long_press st) (key_down_count st) (rel_sum st)
    (consecutive_power_keys st) (consecutive_alternate_keys st) (last_key st)
    (in_touch st) (touch_x st) (touch_y st) (old_x st) (old_y st) (diff_x st)
    (diff_y st) (min_x_swipe_px st) (min_y_swipe_px st) v (max_y_touch st)
    (mt_count st) (v_changed st) (dialog_showing st) (dialog_dismissable st)
    (text_visible st) (calls st) (accesses st).

Definition set_max_y_touch (v : Z) (st : RecoveryUI) : RecoveryUI :=
  mkUI (key_queue st) (key_queue_len st) (key_pressed st) (key_last_down st)
    (key_long_press st) (key_down_count st) (rel_sum st)
    (consecutive_power_keys st) (consecutive_alternate_keys st) (last_key st)
    (in_touch st) (touch_x st) (touch_y st) (old_x st) (old_y st) (diff_x st)
    (diff_y st) (min_x_swipe_px st) (min_y_swipe_px st) (max_x_touch st) v
    (mt_count st) (v_changed st) (dialog_showing st) (dialog_dismissable st)
    (text_visible st) (calls st) (accesses st).

Definition set_mt_count (v : Z) (st : RecoveryUI) : RecoveryUI :=
  mkUI (key_queue st) (key_queue_len st) (key_pressed st) (key_last_down st)
    (key_long_press st) (key_down_count st) (rel_sum st)
    (consecutive_power_keys st) (consecutive_alternate_keys st) (last_key st)
    (in_touch st) (touch_x st) (touch_y st) (old_x st) (old_y st) (diff_x st)
    (diff_y st) (min_x_swipe_px st) (min_y_swipe_px st) (max_x_touch st)
    (max_y_touch st) v (v_changed st) (dialog_showing st)
    (dialog_dismissable st) (text_visible st) (calls st) (accesses st).

Definition set_v_changed (v : Z) (st : RecoveryUI) : RecoveryUI :=
  mkUI (key_queue st) (key_queue_len st) (key_pressed st) (key_last_down st)
    (key_long_press st) (key_down_count st) (rel_sum st)
    (consecutive_power_keys st) (consecutive_alternate_keys st) (last_key st)
    (in_touch st) (touch_x st) (touch_y st) (old_x st) (old_y st) (diff_x st)
    (diff_y st) (min_x_swipe_px st) (min_y_swipe_px st) (max_x_touch st)
    (max_y_touch st) (mt_count st) v (dialog_showing st)
    (dialog_dismissable st) (text_visible st) (calls st) (accesses st).

Definition set_calls (v : list call) (st : RecoveryUI) : RecoveryUI :=
  mkUI (key_queue st) (key_queue_len st) (key_pressed st) (key_last_down st)
    (key_long_press st) (key_down_count st) (rel_sum st)
    (consecutive_power_keys st) (consecutive_alternate_keys st) (last_key st)
    (in_touch st) (touch_x st) (touch_y st) (old_x st) (old_y st) (diff_x st)
    (diff_y st) (min_x_swipe_px st) (min_y_swipe_px st) (max_x_touch st)
    (max_y_touch st) (mt_count st) (v_changed st) (dialog_showing st)
    (dialog_dismissable st) (text_visible st) v (accesses st).

Definition set_accesses (v : list access) (st : RecoveryUI) : RecoveryUI :=
  mkUI (key_queue st) (key_queue_len st) (key_pressed st) (key_last_down st)
    (key_long_press st) (key_down_count st) (rel_sum st)
    (consecutive_power_keys st) (consecutive_alternate_keys st) (last_key st)
    (in_touch st) (touch_x st) (touch_y st) (old_x st) (old_y st) (diff_x st)
    (diff_y st) (min_x_swipe_px st) (min_y_swipe_px st) (max_x_touch st)
    (max_y_touch st) (mt_count st) (v_changed st) (dialog_showing st)
    (dialog_dismissable st) (text_visible st) (calls st) v.

Definition emit (c : call) (st : RecoveryUI) : RecoveryUI :=
  set_calls (calls st ++ [c]) st.

Definition subscript (a : access) (st : RecoveryUI) : RecoveryUI :=
  set_accesses (accesses st ++ [a]) st.

(** The constructor's initialiser list.  [rel_sum], [v_changed] and the two
    arrays are not in it: the object starts with whatever they hold. *)
Definition RecoveryUI_ctor (st : RecoveryUI) : RecoveryUI :=
  mkUI (key_queue st) 0 (key_pressed st) (-1) false 0 (rel_sum st)
    0 0 (-1) 0 0 0 0 0 0 0 100 80 0 0 0 (v_changed st)
    (dialog_showing st) (dialog_dismissable st) (text_visible st)
    (calls st) (accesses st).

(** ** The control socket's command parser *)

(** [strchr(s, ' ')] followed by [*p = '\0']: the text before the first
    space and the text after it, or [None] when [s] holds no space. *)
Fixpoint cut_at_space (s : string) : option (string * string) :=
  match s with
  | EmptyString => None
  | String c rest =>
      if Ascii.eqb c " "%char then Some (EmptyString, rest)
      else match cut_at_space rest with
           | Some (field, rest') => Some (String c field, rest')
           | None => None
           end
  end.

(** The loop of [string_split]; [fields] holds [fields[0..n-1]].  Each turn
    either leaves the loop or adds one to [n], so [maxfields] turns are
    enough to reach [n+1 >= maxfields]. *)
Fixpoint string_split_loop (turns : nat) (s : string) (fields : list string)
    (n maxfields : Z) : list string * Z :=
  match turns with
  | O => (fields ++ [s], n + 1)
  | S turns' =>
      if n + 1 <? maxfields then
        match cut_at_space s with
        | None => (fields ++ [s], n + 1)
        | Some (field, rest) =>
            string_split_loop turns' rest (fields ++ [field]) (n + 1) maxfields
        end
      else (fields ++ [s], n + 1)
  end.

(** [string_split(s, fields, maxfields)]: the fields written and the count
    returned. *)
Definition string_split (s : string) (maxfields : Z) : list string * Z :=
  string_split_loop (Z.to_nat maxfields) s [] 0 maxfields.

Definition field (fields : list string) (i : nat) : string :=
  nth i fields EmptyString.

(** [message_socket_client_event]: [nread] is what [client->Read] returned
    and [buf] the C string it left in the buffer. *)
Definition message_socket_client_event (revents nread : Z) (buf : string)
    (st : RecoveryUI) : Z * RecoveryUI :=
  if Z.land revents POLLIN =? 0 then (0, st)
  else if nread <=? 0 then
    (0, emit client_Close (emit DialogDismiss (emit ev_del_fd st)))
  else
    let '(fields, nfields) := string_split buf 3 in
    if nfields <? 2 then (0, st)
    else if String.eqb (field fields 0) "dialog" then
      let st1 :=
        if String.eqb (field fields 1) "show" && (2 <? nfields)
        then emit (DialogShowInfo (field fields 2)) st else st in
      let st2 :=
        if String.eqb (field fields 1) "dismiss"
        then emit DialogDismiss st1 else st1 in
      (0, st2)
    else (0, st).

(** ** Swipe thresholds *)

(** [atoi]: white space, an optional sign, then decimal digits.  C leaves
    the result undefined when the number does not fit an [int]; the value
    returned here is the number itself. *)
Definition isspace (c : ascii) : bool :=
  let n := Z.of_nat (nat_of_ascii c) in (n =? 32) || ((9 <=? n) && (n <=? 13)).

Definition digit_of (c : ascii) : option Z :=
  let n := Z.of_nat (nat_of_ascii c) in
  if (48 <=? n) && (n <=? 57) then Some (n - 48) else None.

Fixpoint atoi_digits (s : string) (acc : Z) : Z :=
  match s with
  | EmptyString => acc
  | String c rest =>
      match digit_of c with
      | Some d => atoi_digits rest (10 * acc + d)
      | None => acc
      end
  end.

Fixpoint atoi (s : string) : Z :=
  match s with
  | EmptyString => 0
  | String c rest =>
      if isspace c then atoi rest
      else if Ascii.eqb c "-"%char then - atoi_digits rest 0
      else if Ascii.eqb c "+"%char then atoi_digits rest 0
      else atoi_digits s 0
  end.

(** [double] is IEEE 754 binary64, taken from the reference implementation
    of the standard library. *)
Definition double_of_int (z : Z) : spec_float :=
  binary_normalize 53 1024 z 0 false.

Definition double_mul : spec_float -> spec_float -> spec_float :=
  SFmul 53 1024.

(** The literals [0.5] and [0.3] as the compiler rounds them. *)
Definition double_0_5 : spec_float := S754_finite false 4503599627370496 (-53).
Definition double_0_3 : spec_float := S754_finite false 5404319552844595 (-54).

(** The cast [(int)x] discards the fractional part. *)
Definition int_of_double (x : spec_float) : Z :=
  match x with
  | S754_finite s m e =>
      let magnitude :=
        if 0 <=? e then Z.pos m * 2 ^ e else Z.pos m / 2 ^ (- e) in
      if s then - magnitude else magnitude
  | _ => 0
  end.

(** [property_get("ro.sf.lcd_density", value, "0")]: the property's text,
    or the default when the property is not set. *)
Definition property_get (prop : option string) (default_value : string)
    : string :=
  match prop with
  | Some v => v
  | None => default_value
  end.

Definition set_min_swipe_lengths (lcd_density : option string)
    (st : RecoveryUI) : RecoveryUI :=
  let value := property_get lcd_density "0" in
  let screen_density := atoi value in
  if 0 <? screen_density then
    let st1 :=
      set_min_x_swipe_px
        (int_of_double (double_mul double_0_5 (double_of_int screen_density)))
        st in
    set_min_y_swipe_px
      (int_of_double (double_mul double_0_3 (double_of_int screen_density)))
      st1
  else st.

Definition Init (lcd_density : option string) (st : RecoveryUI)
    : RecoveryUI :=
  let st1 := set_min_swipe_lengths lcd_density st in
  emit pthread_create_input_thread
    (emit ev_add_fd_message_socket
       (emit message_socket_ServerInit (emit ev_init st1))).

(** ** The key queue: producer side *)

Definition EnqueueKey (key_code : Z) (st : RecoveryUI) : RecoveryUI :=
  if dialog_showing st then
    if dialog_dismissable st then emit DialogDismiss st else st
  else
    if key_queue_len st <? queue_max then
      let st1 := subscript (at_key_queue (key_queue_len st)) st in
      let st2 :=
        set_key_queue (array_store (key_queue st1) (key_queue_len st1) key_code)
          st1 in
      let st3 := set_key_queue_len (wrap32 (key_queue_len st2 + 1)) st2 in
      emit pthread_cond_signal st3
    else st.

Definition CancelWaitKey (st : RecoveryUI) : RecoveryUI :=
  let st1 := subscript (at_key_queue (key_queue_len st)) st in
  let st2 :=
    set_key_queue (array_store (key_queue st1) (key_queue_len st1) (-2)) st1 in
  let st3 := set_key_queue_len (wrap32 (key_queue_len st2 + 1)) st2 in
  emit pthread_cond_signal st3.

Definition FlushKeys (st : RecoveryUI) : RecoveryUI :=
  set_key_queue_len 0 st.

Definition NotifyVolumesChanged (st : RecoveryUI) : RecoveryUI :=
  set_v_changed 1 st.

Definition VolumesChanged (st : RecoveryUI) : bool * RecoveryUI :=
  let ret := v_changed st in
  let st1 := if 0 <? v_changed st then set_v_changed 0 st else st in
  (ret =? 1, st1).

(** ** The default policy *)

Inductive KeyAction : Type := IGNORE | TOGGLE | REBOOT | ENQUEUE | MOUNT_SYSTEM.

Definition KeyAction_eqb (a b : KeyAction) : bool :=
  match a, b with
  | IGNORE, IGNORE | TOGGLE, TOGGLE | REBOOT, REBOOT
  | ENQUEUE, ENQUEUE | MOUNT_SYSTEM, MOUNT_SYSTEM => true
  | _, _ => false
  end.

Definition IsKeyPressed (key : Z) (st : RecoveryUI) : bool * RecoveryUI :=
  let st1 := subscript (at_key_pressed key) st in
  let pressed := array_load (key_pressed st1) key in
  (negb (pressed =? 0), st1).

Definition CheckKey (key : Z) (st : RecoveryUI) : KeyAction * RecoveryUI :=
  let '(power_held, st0) := IsKeyPressed KEY_POWER st in
  if power_held && (key =? KEY_VOLUMEUP) then (TOGGLE, st0)
  else
    let '(reboot, st1) :=
      if key =? KEY_POWER then
        let st' :=
          set_consecutive_power_keys (wrap32 (consecutive_power_keys st0 + 1))
            st0 in
        (7 <=? consecutive_power_keys st', st')
      else (false, set_consecutive_power_keys 0 st0) in
    if reboot then (REBOOT, st1)
    else if ((key =? KEY_VOLUMEUP) &&
             ((last_key st1 =? KEY_VOLUMEDOWN) || (last_key st1 =? -1))) ||
            ((key =? KEY_VOLUMEDOWN) &&
             ((last_key st1 =? KEY_VOLUMEUP) || (last_key st1 =? -1)))
    then
      let st2 :=
        set_consecutive_alternate_keys
          (wrap32 (consecutive_alternate_keys st1 + 1)) st1 in
      if 7 <=? consecutive_alternate_keys st2
      then (MOUNT_SYSTEM, set_consecutive_alternate_keys 0 st2)
      else (ENQUEUE, set_last_key key st2)
    else (ENQUEUE, set_last_key key (set_consecutive_alternate_keys 0 st1)).

(** ** The key pipeline *)

Section Dispatcher.

(** [NO_RECOVERY_MOUNT] is a build flag; the frame buffer's size comes
    from the graphics library.  [scale_touch value max dim] stands for
    the single-precision computation [((float)value / (float)max) * dim]
    converted to [int]. *)
Variable NO_RECOVERY_MOUNT : bool.
Variables gr_fb_width gr_fb_height : Z.
Variable scale_touch : Z -> Z -> Z -> Z.

(** The part of [process_key] that runs under [key_queue_mutex]; it
    yields the locals [register_key] and [long_press]. *)
Definition process_key_locked (key_code updown : Z) (st : RecoveryUI)
    : bool * bool * RecoveryUI :=
  let st1 := subscript (at_key_pressed key_code) st in
  let st2 :=
    set_key_pressed (array_store (key_pressed st1) key_code updown) st1 in
  if negb (updown =? 0) then
    let st3 := set_key_down_count (wrap32 (key_down_count st2 + 1)) st2 in
    let st4 := set_key_long_press false (set_key_last_down key_code st3) in
    (false, false,
     emit (pthread_create_time_key key_code (key_down_count st4)) st4)
  else
    let '(register_key, long_press) :=
      if key_last_down st2 =? key_code
      then (true, key_long_press st2) else (false, false) in
    (register_key, long_press, set_key_last_down (-1) st2).

Definition process_key (key_code updown : Z) (st : RecoveryUI)
    : RecoveryUI :=
  let '(register_key, long_press, st1) :=
    process_key_locked key_code updown st in
  if register_key then
    let st2 := emit (NextCheckKeyIsLong long_press) st1 in
    let '(action, st3) :=
      CheckKey key_code (emit (CheckKey_called key_code) st2) in
    match action with
    | IGNORE => st3
    | TOGGLE => emit (ShowText (negb (text_visible st3))) st3
    | REBOOT => emit android_reboot (emit vold_unmount_all st3)
    | ENQUEUE => EnqueueKey key_code st3
    | MOUNT_SYSTEM =>
        if NO_RECOVERY_MOUNT then st3
        else emit (Print "Mounted /system.")
               (emit (ensure_path_mounted "/system") st3)
    end
  else st1.

(** [time_key] after its 750 ms sleep. *)
Definition time_key (key_code count : Z) (st : RecoveryUI) : RecoveryUI :=
  if (key_last_down st =? key_code) && (key_down_count st =? count)
  then emit (KeyLongPress key_code) (set_key_long_press true st)
  else st.

(** ** The swipe recogniser *)

Definition reset_gestures (st : RecoveryUI) : RecoveryUI :=
  set_touch_y 0 (set_touch_x 0 (set_old_y 0 (set_old_x 0
    (set_diff_y 0 (set_diff_x 0 st))))).

(** What the two [EVIOCGABS] requests on an input device answer: the
    maximum of the axis, or nothing when the request fails and leaves
    [abs_store] as it was. *)
Record input_fd : Type := mkFd {
  abs_mt_position_x_max : option Z;
  abs_mt_position_y_max : option Z
}.

Definition query_touch_maxima (fd : input_fd) (st : RecoveryUI)
    : RecoveryUI :=
  if (max_x_touch st =? 0) || (max_y_touch st =? 0) then
    let abs_store2 := 0 in
    let abs_store2 := default abs_store2 (abs_mt_position_x_max fd) in
    let st1 := set_max_x_touch abs_store2 st in
    let abs_store2 := default abs_store2 (abs_mt_position_y_max fd) in
    set_max_y_touch abs_store2 st1
  else st.

Definition process_swipe (fd : input_fd) (ev : input_event)
    (st : RecoveryUI) : RecoveryUI :=
  let st1 := query_touch_maxima fd st in
  if (ev_type ev =? EV_KEY) && (ev_code ev =? BTN_TOUCH) then
    let st2 :=
      if ev_value ev =? KEY_DOWN
      then set_mt_count (wrap32 (mt_count st1 + 1)) st1
      else if (0 <? mt_count st1) && (ev_value ev =? KEY_UP)
      then set_mt_count (wrap32 (mt_count st1 - 1)) st1
      else st1 in
    if mt_count st2 =? 0 then reset_gestures st2 else st2
  else if ev_type ev =? EV_SYN then
    if (in_touch st1 =? 0) && (ev_code ev =? SYN_MT_REPORT)
    then reset_gestures st1
    else
      let st2 := set_in_touch 0 st1 in
      if min_y_swipe_px st2 <? diff_y st2
      then reset_gestures (EnqueueKey KEY_VOLUMEDOWN st2)
      else if diff_y st2 <? wrap32 (- min_y_swipe_px st2)
      then reset_gestures (EnqueueKey KEY_VOLUMEUP st2)
      else if min_x_swipe_px st2 <? diff_x st2
      then reset_gestures (EnqueueKey KEY_POWER st2)
      else if diff_x st2 <? wrap32 (- min_x_swipe_px st2)
      then reset_gestures (EnqueueKey KEY_BACK st2)
      else st2
  else if (ev_type ev =? EV_ABS) && (ev_code ev =? ABS_MT_POSITION_X) then
    let st2 := set_old_x (touch_x st1) (set_in_touch 1 st1) in
    let st3 :=
      set_touch_x (scale_touch (ev_value ev) (max_x_touch st2) gr_fb_width)
        st2 in
    if negb (old_x st3 =? 0)
    then set_diff_x (wrap32 (diff_x st3 + wrap32 (touch_x st3 - old_x st3)))
           st3
    else st3
  else if (ev_type ev =? EV_ABS) && (ev_code ev =? ABS_MT_POSITION_Y) then
    let st2 := set_old_y (touch_y st1) (set_in_touch 1 st1) in
    let st3 :=
      set_touch_y (scale_touch (ev_value ev) (max_y_touch st2) gr_fb_height)
        st2 in
    if negb (old_y st3 =? 0)
    then set_diff_y (wrap32 (diff_y st3 + wrap32 (touch_y st3 - old_y st3)))
           st3
    else st3
  else st1.

(** ** The input callback *)

(** [got] is the event [ev_get_input] delivered, or [None] when it
    returned non-zero. *)
Definition input_callback (fd : input_fd) (got : option input_event)
    (st : RecoveryUI) : Z * RecoveryUI :=
  match got with
  | None => (-1, st)
  | Some ev =>
      let st1 := process_swipe fd ev st in
      if ev_type ev =? EV_SYN then (0, st1)
      else
        let st2 :=
          if ev_type ev =? EV_REL then
            if ev_code ev =? REL_Y then
              let st' :=
                set_rel_sum (wrap32 (rel_sum st1 + ev_value ev)) st1 in
              if 3 <? rel_sum st' then
                set_rel_sum 0
                  (process_key KEY_DOWN 0 (process_key KEY_DOWN 1 st'))
              else if rel_sum st' <? -3 then
                set_rel_sum 0
                  (process_key KEY_UP 0 (process_key KEY_UP 1 st'))
              else st'
            else st1
          else set_rel_sum 0 st1 in
        let st3 :=
          if (ev_type ev =? EV_KEY) && (ev_code ev <=? KEY_MAX)
          then process_key (ev_code ev) (ev_value ev) st2
          else st2 in
        (0, st3)
  end.

(** ** The foreground waiter *)

(** Return true if USB is connected.  [state_file] is what
    [/sys/class/android_usb/android0/state] holds, or [None] when it
    cannot be opened; one byte of it is read. *)
Definition usb_connected (state_file : option string) (st : RecoveryUI)
    : bool * RecoveryUI :=
  let st1 := emit open_android_usb_state st in
  match state_file with
  | None => (false, st1)
  | Some EmptyString => (false, st1)
  | Some (String buf _) => (Ascii.eqb buf "C"%char, st1)
  end.

(** What another thread does to the object while the waiter sleeps in
    [pthread_cond_timedwait] and the mutex is free. *)
Inductive other_thread : Type :=
  | input_event_arrives (fd : input_fd) (got : option input_event)
  | key_timer_fires (key_code count : Z)
  | socket_message (revents nread : Z) (buf : string)
  | cancel_wait_key
  | notify_volumes_changed.

Definition run_other (o : other_thread) (st : RecoveryUI) : RecoveryUI :=
  match o with
  | input_event_arrives fd got => snd (input_callback fd got st)
  | key_timer_fires key_code count => time_key key_code count st
  | socket_message revents nread buf =>
      snd (message_socket_client_event revents nread buf st)
  | cancel_wait_key => CancelWaitKey st
  | notify_volumes_changed => NotifyVolumesChanged st
  end.

(** One return of [pthread_cond_timedwait]: what the other threads did
    meanwhile, and the value returned ([0] or [ETIMEDOUT]). *)
Record wake : Type := mkWake {
  wake_others : list other_thread;
  wake_rc : Z
}.

(** How a call of [WaitKey] ends: with a key (or -1, or the -2 of
    [CancelWaitKey]), with [Device::kRefresh] (a constant of [device.h],
    kept symbolic), or not yet. *)
Inductive wait_outcome : Type :=
  | returns (key : Z) (st : RecoveryUI)
  | returns_kRefresh (st : RecoveryUI)
  | still_waiting (st : RecoveryUI).

(** [memcpy(&a[0], &a[1], sizeof(int) * n)]. *)
Definition memcpy_down (a : list Z) (n : Z) : list Z :=
  imap (fun i x => if Z.of_nat i <? n then array_load a (Z.of_nat i + 1)
                   else x) a.

(** The code after the [do]-[while]. *)
Definition WaitKey_take (st : RecoveryUI) : wait_outcome :=
  if 0 <? key_queue_len st then
    let st1 := subscript (at_key_queue 0) st in
    let key := array_load (key_queue st1) 0 in
    let st2 := set_key_queue_len (wrap32 (key_queue_len st1 - 1)) st1 in
    let st3 :=
      if 0 <? key_queue_len st2
      then subscript (at_key_queue (key_queue_len st2)) st2 else st2 in
    returns key
      (set_key_queue (memcpy_down (key_queue st3) (key_queue_len st3)) st3)
  else returns (-1) st.

(** The test of the [do]-[while]:
    [(timeouts || usb_connected()) && key_queue_len == 0]. *)
Definition WaitKey_again (state_file : option string) (timeouts : Z)
    (st : RecoveryUI) : bool * RecoveryUI :=
  let '(lhs, st1) :=
    if negb (timeouts =? 0) then (true, st)
    else usb_connected state_file st in
  (lhs && (key_queue_len st1 =? 0), st1).

(** The [do]-[while] of [WaitKey], entered at the test of the inner
    [while] with [rc != ETIMEDOUT].  [wakes] lists the returns of
    [pthread_cond_timedwait] still to come; when it is used up the waiter
    is still asleep.  [slice] counts the turns of the [do]-[while] from
    1, and [cable n] is the state file as the test at the end of turn [n]
    finds it. *)
Fixpoint WaitKey_loop (wakes : list wake) (cable : nat -> option string)
    (slice : nat) (timeouts : Z) (st : RecoveryUI) : wait_outcome :=
  if key_queue_len st =? 0 then
    match wakes with
    | [] => still_waiting st
    | w :: wakes' =>
        let st1 := fold_left (fun s o => run_other o s) (wake_others w) st in
        let '(changed, st2) := VolumesChanged st1 in
        if changed then returns_kRefresh st2
        else if wake_rc w =? ETIMEDOUT then
          let timeouts' := wrap32 (timeouts - 1) in
          let '(again, st3) := WaitKey_again (cable slice) timeouts' st2 in
          if again then WaitKey_loop wakes' cable (S slice) timeouts' st3
          else WaitKey_take st3
        else WaitKey_loop wakes' cable slice timeouts st2
    end
  else
    (* the inner [while] is left at once, and so is the [do]-[while],
       its test being false for a queue that is not empty *)
    let timeouts' := wrap32 (timeouts - 1) in
    let '(_, st3) := WaitKey_again (cable slice) timeouts' st in
    WaitKey_take st3.

Definition WaitKey (wakes : list wake) (cable : nat -> option string)
    (st : RecoveryUI) : wait_outcome :=
  WaitKey_loop wakes cable 1 UI_WAIT_KEY_TIMEOUT_SEC st.

End Dispatcher.

(** ** Objects, events and readings used in the statements *)

Definition LF : string := String (ascii_of_nat 10) EmptyString.

(** A freshly constructed object over zeroed memory, no dialog on screen. *)
Definition fresh_ui : RecoveryUI :=
  RecoveryUI_ctor
    (mkUI (replicate (Z.to_nat queue_max) 0) 0
       (replicate (Z.to_nat key_pressed_size) 0) 0 false 0 0 0 0 0
       0 0 0 0 0 0 0 0 0 0 0 0 0 false false false [] []).

(** The same with 256 keys waiting. *)
Definition full_ui : RecoveryUI := set_key_queue_len queue_max fresh_ui.

(** Power held down. *)
Definition power_held_ui : RecoveryUI :=
  set_key_pressed (array_store (key_pressed fresh_ui) KEY_POWER 1) fresh_ui.

(** The trackball half way to a synthetic key. *)
Definition rolling_ui : RecoveryUI := set_rel_sum 2 fresh_ui.

(** A 1080x1920 panel, the scaling done in exact arithmetic, and a device
    that does not answer [EVIOCGABS]. *)
Definition exact_scale (value max dim : Z) : Z := value * dim / max.
Definition no_abs_fd : input_fd := mkFd None None.

(** The kernel reports a touch as [EV_KEY]/[BTN_TOUCH] with value 1 when the
    finger lands and value 0 when it lifts. *)
Definition touch_pressed : input_event := mkEvent EV_KEY BTN_TOUCH 1.
Definition touch_released : input_event := mkEvent EV_KEY BTN_TOUCH 0.

Definition syn_report : input_event := mkEvent EV_SYN SYN_REPORT 0.
Definition trackball (dy : Z) : input_event := mkEvent EV_REL REL_Y dy.

Definition hello_line : string := ("dialog show Hello world" ++ LF)%string.

(** The key codes handed to [CheckKey], oldest first: the keys registered. *)
Definition registered (cs : list call) : list Z :=
  omap (fun c => match c with CheckKey_called k => Some k | _ => None end) cs.

(** The chord: A down, B down, B up, A up. *)
Definition chord (NO_RECOVERY_MOUNT : bool) (A B : Z) (st : RecoveryUI)
    : RecoveryUI :=
  process_key NO_RECOVERY_MOUNT A 0
    (process_key NO_RECOVERY_MOUNT B 0
       (process_key NO_RECOVERY_MOUNT B 1
          (process_key NO_RECOVERY_MOUNT A 1 st))).

(** [n] clean presses of [key]: down, then up. *)
Fixpoint presses (n : nat) (key : Z) (st : RecoveryUI) : RecoveryUI :=
  match n with
  | O => st
  | S n' =>
      presses n' key (process_key false key 0 (process_key false key 1 st))
  end.

(** The bound on the key queue. *)
Definition queue_bounded (st : RecoveryUI) : Prop :=
  0 <= key_queue_len st <= queue_max.

(** A subscript that, if applied to [key_pressed], is within [0, KEY_MAX]. *)
Definition key_pressed_in_range (a : access) : Prop :=
  match a with
  | at_key_pressed i => 0 <= i <= KEY_MAX
  | at_key_queue _ => True
  end.

(** [st'] is [st] after some more subscripts, those applied to
    [key_pressed] all within [0, KEY_MAX]. *)
Definition extends (st st' : RecoveryUI) : Prop :=
  exists l, accesses st' = accesses st ++ l /\ Forall key_pressed_in_range l.

(** The thresholds in the spec's words: 0.5 and 0.3 times the density,
    rounded to the nearest integer. *)
Definition round_tenths (n : Z) : Z := (n + 5) / 10.
Definition spec_min_dx_px (dpi : Z) : Z := round_tenths (5 * dpi).
Definition spec_min_dy_px (dpi : Z) : Z := round_tenths (3 * dpi).

(** The two products and casts of [set_min_swipe_lengths], compared with
    integer division. *)
Definition density_ok (d : Z) : bool :=
  (int_of_double (double_mul double_0_5 (double_of_int d)) =? d / 2) &&
  (int_of_double (double_mul double_0_3 (double_of_int d)) =? 3 * d / 10).

Fixpoint densities_ok (n : nat) (d : Z) : bool :=
  match n with
  | O => true
  | S n' => density_ok d && densities_ok n' (d + 1)
  end.

(** A one-second slice that ends with [ETIMEDOUT] while no other thread
    touches the object. *)
Definition timed_out : wake := mkWake [] ETIMEDOUT.

(** A cable that is plugged in until the end of slice [n] and out from
    then on. *)
Definition unplugged_after (n : nat) (slice : nat) : option string :=
  if (slice <=? n)%nat then Some "CONFIGURED"%string
  else Some "DISCONNECTED"%string.

(** ** Readings of the command parser *)

(** Whether a string holds a space. *)
Fixpoint has_space (s : string) : bool :=
  match s with
  | EmptyString => false
  | String c rest => Ascii.eqb c " "%char || has_space rest
  end.

(** The fields put together again, one space between two of them. *)
Fixpoint join_fields (fields : list string) : string :=
  match fields with
  | [] => EmptyString
  | [f] => f
  | f :: rest => (f ++ " " ++ join_fields rest)%string
  end.

(** ** Readings of the policy *)

(** [CheckKey] for a run of registered keys: the actions it returns, in
    order, and the object after the last of them. *)
Fixpoint CheckKey_seq (keys : list Z) (st : RecoveryUI)
    : list KeyAction * RecoveryUI :=
  match keys with
  | [] => ([], st)
  | key :: keys' =>
      let '(action, st1) := CheckKey key st in
      let '(actions, st2) := CheckKey_seq keys' st1 in
      (action :: actions, st2)
  end.

(** What [CheckKey] reads of the object and what it writes: whether power
    is held, and the three fields of the policy. *)
Record policy : Type := mkPolicy {
  power_held : bool;
  power_keys : Z;
  alternate_keys : Z;
  previous_key : Z
}.

Definition policy_of (st : RecoveryUI) : policy :=
  mkPolicy (negb (array_load (key_pressed st) KEY_POWER =? 0))
    (consecutive_power_keys st) (consecutive_alternate_keys st) (last_key st).

(** [CheckKey] on that part of the object alone. *)
Definition policy_step (key : Z) (p : policy) : KeyAction * policy :=
  if power_held p && (key =? KEY_VOLUMEUP) then (TOGGLE, p)
  else
    let power_keys' :=
      if key =? KEY_POWER then wrap32 (power_keys p + 1) else 0 in
    if (key =? KEY_POWER) && (7 <=? power_keys') then
      (REBOOT,
       mkPolicy (power_held p) power_keys' (alternate_keys p) (previous_key p))
    else if ((key =? KEY_VOLUMEUP) &&
             ((previous_key p =? KEY_VOLUMEDOWN) || (previous_key p =? -1))) ||
            ((key =? KEY_VOLUMEDOWN) &&
             ((previous_key p =? KEY_VOLUMEUP) || (previous_key p =? -1)))
    then
      let alternate' := wrap32 (alternate_keys p + 1) in
      if 7 <=? alternate'
      then (MOUNT_SYSTEM,
            mkPolicy (power_held p) power_keys' 0 (previous_key p))
      else (ENQUEUE, mkPolicy (power_held p) power_keys' alternate' key)
    else (ENQUEUE, mkPolicy (power_held p) power_keys' 0 key).

Fixpoint policy_run (keys : list Z) (p : policy) : list KeyAction * policy :=
  match keys with
  | [] => ([], p)
  | key :: keys' =>
      let '(action, p1) := policy_step key p in
      let '(actions, p2) := policy_run keys' p1 in
      (action :: actions, p2)
  end.

Definition VOLUME_UP_DOWN_7 : list Z :=
  [KEY_VOLUMEUP; KEY_VOLUMEDOWN; KEY_VOLUMEUP; KEY_VOLUMEDOWN;
   KEY_VOLUMEUP; KEY_VOLUMEDOWN; KEY_VOLUMEUP].

(** ** Readings of the key queue *)

(** The keys waiting in the queue, oldest first. *)
Definition queued (st : RecoveryUI) : list Z :=
  take (Z.to_nat (key_queue_len st)) (key_queue st).

(** The array has its declared size and the length is within it. *)
Definition queue_wf (st : RecoveryUI) : Prop :=
  Z.of_nat (length (key_queue st)) = queue_max /\
  0 <= key_queue_len st <= queue_max.

Definition enqueue_all (keys : list Z) (st : RecoveryUI) : RecoveryUI :=
  fold_left (fun s k => EnqueueKey k s) keys st.

(** The keys that [n] calls of a waiter return, as long as it returns. *)
Fixpoint drain (wait : RecoveryUI -> wait_outcome) (n : nat)
    (st : RecoveryUI) : list Z :=
  match n with
  | O => []
  | S n' =>
      match wait st with
      | returns key st' => key :: drain wait n' st'
      | returns_kRefresh _ => []
      | still_waiting _ => []
      end
  end.

(** A sleep in which the back key is pressed and released and a volume
    change is notified. *)
Definition back_key_and_notify : wake :=
  mkWake [input_event_arrives no_abs_fd (Some (mkEvent EV_KEY KEY_BACK 1));
          input_event_arrives no_abs_fd (Some (mkEvent EV_KEY KEY_BACK 0));
          notify_volumes_changed] 0.

(** ** Readings of the swipe recogniser *)

(** The two thresholds are proper lengths. *)
Definition thresholds_ok (st : RecoveryUI) : Prop :=
  0 <= min_x_swipe_px st <= INT_MAX /\ 0 <= min_y_swipe_px st <= INT_MAX.

(** Neither accumulated displacement is beyond its threshold. *)
Definition within_thresholds (st : RecoveryUI) : Prop :=
  - min_y_swipe_px st <= diff_y st <= min_y_swipe_px st /\
  - min_x_swipe_px st <= diff_x st <= min_x_swipe_px st.

(** ** Readings of the trackball *)

(** The running sums of the trackball, started at [sum], stay within the
    band in which no key is made up. *)
Fixpoint sums_within (sum : Z) (values : list Z) : Prop :=
  match values with
  | [] => True
  | v :: values' => -3 <= sum + v <= 3 /\ sums_within (sum + v) values'
  end.

Definition sum_of (values : list Z) : Z := fold_right Z.add 0 values.

(** A swipe down the panel waiting for its [SYN_REPORT]. *)
Definition swiped_ui : RecoveryUI := set_diff_y 200 fresh_ui.

(** ** The handler's buffer *)








(** * Properties *)

(** ** Machine integers and the call log *)

Lemma wrap32_in_range (z : Z) : INT_MIN <= z <= INT_MAX -> wrap32 z = z.
Proof.
  unfold wrap32, INT_MIN, INT_MAX. intros H.
  rewrite Z.mod_small by lia. lia.
Qed.

Lemma registered_app (l1 l2 : list call) :
  registered (l1 ++ l2) = registered l1 ++ registered l2.
Proof. unfold registered. apply omap_app. Qed.

Lemma rel_sum_set_rel_sum (v : Z) (st : RecoveryUI) :
  rel_sum (set_rel_sum v st) = v.
Proof. reflexivity. Qed.

Lemma calls_set_rel_sum (v : Z) (st : RecoveryUI) :
  calls (set_rel_sum v st) = calls st.
Proof. reflexivity. Qed.

Lemma accesses_set_rel_sum (v : Z) (st : RecoveryUI) :
  accesses (set_rel_sum v st) = accesses st.
Proof. reflexivity. Qed.

Ltac split_ifs :=
  repeat (match goal with
          | |- context [if ?b then _ else _] => destruct b eqn:?
          end; cbn).

(** Name the result of the [CheckKey] call in the goal and bring in the
    frame lemma [H] about it. *)
Ltac with_CheckKey H :=
  match goal with
  | |- context [CheckKey ?k ?s] =>
      let a := fresh "action" in
      let st := fresh "st_policy" in
      let E := fresh "HCheckKey" in
      destruct (CheckKey k s) as [a st] eqn:E;
      pose proof (H k s) as ?; rewrite E in *; cbn [snd] in *
  end.

(** ** EnqueueKey *)

(** C9 -- [EnqueueKey] is a total function of the object (there is no wait
    in it); when a dialog is showing, or when the queue is full, the queue
    and its length are left as they were and the condition variable is not
    signalled: the only call made is [DialogDismiss], and that only for a
    dismissable dialog that is showing. *)
Theorem EnqueueKey_drops_key (key_code : Z) (st : RecoveryUI) :
  dialog_showing st = true \/ queue_max <= key_queue_len st ->
  key_queue (EnqueueKey key_code st) = key_queue st /\
  key_queue_len (EnqueueKey key_code st) = key_queue_len st /\
  calls (EnqueueKey key_code st) =
    calls st ++
      (if dialog_showing st && dialog_dismissable st then [DialogDismiss]
       else []).
Proof.
  intros H. unfold EnqueueKey.
  destruct (dialog_showing st) eqn:Hs.
  - destruct (dialog_dismissable st); simpl.
    + auto.
    + rewrite app_nil_r. auto.
  - destruct H as [H | H]; [discriminate |].
    apply Z.ltb_ge in H. rewrite H. simpl. rewrite app_nil_r. auto.
Qed.

Lemma EnqueueKey_drops_key_witness :
  (dialog_showing full_ui = true \/ queue_max <= key_queue_len full_ui) /\
  key_queue_len (EnqueueKey KEY_POWER full_ui) = key_queue_len full_ui /\
  calls (EnqueueKey KEY_POWER full_ui) = [].
Proof.
  assert (H : dialog_showing full_ui = true \/
              queue_max <= key_queue_len full_ui).
  { right. vm_compute. discriminate. }
  split; [exact H |].
  destruct (EnqueueKey_drops_key KEY_POWER full_ui H) as (_ & Hlen & Hcalls).
  split; [exact Hlen | exact Hcalls].
Defined.

(** With room in the queue and no dialog, the key is stored at the end and
    the waiter is signalled. *)
Lemma EnqueueKey_pushes (key_code : Z) (st : RecoveryUI) :
  dialog_showing st = false -> 0 <= key_queue_len st < queue_max ->
  key_queue_len (EnqueueKey key_code st) = key_queue_len st + 1 /\
  key_queue (EnqueueKey key_code st) =
    array_store (key_queue st) (key_queue_len st) key_code /\
  calls (EnqueueKey key_code st) = calls st ++ [pthread_cond_signal].
Proof.
  intros Hs Hlen. unfold EnqueueKey. rewrite Hs.
  assert (Hlt : (key_queue_len st <? queue_max) = true)
    by (apply Z.ltb_lt; lia).
  rewrite Hlt. cbn. unfold queue_max in Hlen.
  rewrite wrap32_in_range by (unfold INT_MIN, INT_MAX; lia). auto.
Qed.

(** ** CheckKey *)

(** C7, as stated, fails: with power held, [CheckKey(KEY_VOLUMEUP)] returns
    [TOGGLE] before it reaches the assignment to [last_key], which keeps
    its old value -1. *)
Lemma CheckKey_toggle_keeps_last_key :
  fst (CheckKey KEY_VOLUMEUP power_held_ui) = TOGGLE /\
  last_key (snd (CheckKey KEY_VOLUMEUP power_held_ui)) = -1 /\
  last_key (snd (CheckKey KEY_VOLUMEUP power_held_ui)) <> KEY_VOLUMEUP.
Proof. vm_compute. repeat split; discriminate. Qed.

(** C7, amended -- the default [CheckKey] never returns [IGNORE]; it stores
    the key in [last_key] exactly when it returns [ENQUEUE], and leaves
    [last_key] as it was when it returns [TOGGLE], [REBOOT] or
    [MOUNT_SYSTEM]. *)
Theorem CheckKey_last_key (key : Z) (st : RecoveryUI) :
  fst (CheckKey key st) <> IGNORE /\
  last_key (snd (CheckKey key st)) =
    if KeyAction_eqb (fst (CheckKey key st)) ENQUEUE then key
    else last_key st.
Proof.
  unfold CheckKey, IsKeyPressed. cbn [fst snd].
  split_ifs; split; (discriminate || reflexivity).
Qed.

(** ** The command parser *)







(** [dialog dismiss] dismisses, and other text is ignored. *)
Lemma dialog_dismiss_and_garbage (st : RecoveryUI) :
  message_socket_client_event POLLIN 15 "dialog dismiss" st =
    (0, emit DialogDismiss st) /\
  message_socket_client_event POLLIN 12 "reboot now" st = (0, st) /\
  message_socket_client_event POLLIN 6 "dialog" st = (0, st).
Proof. repeat split. Qed.

(** ** The touch counter *)

(** C5 -- the code compares the event's value with the key codes [KEY_DOWN]
    (108) and [KEY_UP] (103): a touch-pressed event (value 1) leaves
    [mt_count] as it was instead of adding one to it. *)
Theorem process_swipe_touch_pressed_not_counted (gr_fb_width gr_fb_height : Z)
    (scale_touch : Z -> Z -> Z -> Z) (fd : input_fd) (st : RecoveryUI) :
  mt_count (process_swipe gr_fb_width gr_fb_height scale_touch fd
              touch_pressed st) = mt_count st.
Proof.
  unfold process_swipe, touch_pressed. cbn [ev_type ev_code ev_value].
  change (EV_KEY =? EV_KEY) with true.
  change (BTN_TOUCH =? BTN_TOUCH) with true.
  change (1 =? KEY_DOWN) with false.
  change (1 =? KEY_UP) with false.
  rewrite andb_false_r. cbn [andb].
  assert (Hq : mt_count (query_touch_maxima fd st) = mt_count st).
  { unfold query_touch_maxima.
    destruct ((max_x_touch st =? 0) || (max_y_touch st =? 0)); reflexivity. }
  destruct (mt_count (query_touch_maxima fd st) =? 0); exact Hq.
Qed.

(** The first finger on the panel: the count stays 0 where it should
    become 1; only the values 108 and 103 move it. *)
Lemma process_swipe_first_touch_leaves_zero :
  mt_count (process_swipe 1080 1920 exact_scale no_abs_fd touch_pressed
              fresh_ui) = 0 /\
  mt_count (process_swipe 1080 1920 exact_scale no_abs_fd
              (mkEvent EV_KEY BTN_TOUCH KEY_DOWN) fresh_ui) = 1.
Proof. split; reflexivity. Qed.

(** ** Swipe thresholds *)

(** C8, as stated, fails: at density 213 (tvdpi) the code computes
    [(int)63.9 = 63] for the vertical threshold, where rounding gives 64. *)
Lemma Init_density_213 :
  min_y_swipe_px (Init (Some "213"%string) fresh_ui) = 63 /\
  spec_min_dy_px 213 = 64 /\
  min_y_swipe_px (Init (Some "213"%string) fresh_ui) <> spec_min_dy_px 213.
Proof. vm_compute. repeat split. discriminate. Qed.

(** The literals are the doubles nearest to 1/2 and 3/10. *)
Lemma double_literals :
  double_0_5 = SFdiv 53 1024 (double_of_int 1) (double_of_int 2) /\
  double_0_3 = SFdiv 53 1024 (double_of_int 3) (double_of_int 10).
Proof. split; vm_compute; reflexivity. Qed.

Lemma densities_ok_sound (n : nat) :
  forall d0, densities_ok n d0 = true ->
  forall d, d0 <= d < d0 + Z.of_nat n -> density_ok d = true.
Proof.
  induction n as [| n IH]; intros d0 Hall d Hd.
  - lia.
  - cbn [densities_ok] in Hall. apply andb_prop in Hall as [Hhere Hrest].
    destruct (Z.eq_dec d d0) as [-> | Hne]; [exact Hhere |].
    apply (IH (d0 + 1) Hrest). lia.
Qed.

Lemma densities_checked : densities_ok (Z.to_nat 65535) 1 = true.
Proof. vm_compute. reflexivity. Qed.

Lemma density_ok_16bit (d : Z) : 0 < d <= 65535 -> density_ok d = true.
Proof.
  intros Hd. apply (densities_ok_sound _ 1 densities_checked). lia.
Qed.

Lemma Init_thresholds (lcd_density : option string) (st : RecoveryUI) :
  min_x_swipe_px (Init lcd_density st) =
    min_x_swipe_px (set_min_swipe_lengths lcd_density st) /\
  min_y_swipe_px (Init lcd_density st) =
    min_y_swipe_px (set_min_swipe_lengths lcd_density st).
Proof. split; reflexivity. Qed.

(** C8, amended -- with the density property present and its value [d]
    positive (checked for every [d] up to 65535), [Init] sets the
    thresholds to [0.5 * d] and [0.3 * d] with the fraction cut off, that
    is [d / 2] and [3 * d / 10] in integer division; with the property
    missing, or its value zero or less, the thresholds stay as they were,
    which after construction is 100 and 80. *)
Theorem Init_thresholds_truncate (lcd_density : option string)
    (st : RecoveryUI) :
  (0 < atoi (property_get lcd_density "0") <= 65535 ->
   min_x_swipe_px (Init lcd_density st) =
     atoi (property_get lcd_density "0") / 2 /\
   min_y_swipe_px (Init lcd_density st) =
     3 * atoi (property_get lcd_density "0") / 10) /\
  (atoi (property_get lcd_density "0") <= 0 ->
   min_x_swipe_px (Init lcd_density st) = min_x_swipe_px st /\
   min_y_swipe_px (Init lcd_density st) = min_y_swipe_px st) /\
  min_x_swipe_px (Init None (RecoveryUI_ctor st)) = 100 /\
  min_y_swipe_px (Init None (RecoveryUI_ctor st)) = 80 /\
  min_x_swipe_px (Init (Some "0"%string) (RecoveryUI_ctor st)) = 100 /\
  min_y_swipe_px (Init (Some "0"%string) (RecoveryUI_ctor st)) = 80.
Proof.
  destruct (Init_thresholds lcd_density st) as [Hx Hy].
  split; [| split; [| repeat split]].
  - intros Hd. rewrite Hx, Hy. unfold set_min_swipe_lengths.
    set (d := atoi (property_get lcd_density "0")) in *.
    assert (Hpos : (0 <? d) = true) by (apply Z.ltb_lt; lia).
    rewrite Hpos. cbn [min_x_swipe_px min_y_swipe_px set_min_x_swipe_px
                       set_min_y_swipe_px].
    pose proof (density_ok_16bit d Hd) as Hok. unfold density_ok in Hok.
    apply andb_prop in Hok as [Hdx Hdy].
    apply Z.eqb_eq in Hdx, Hdy. split; assumption.
  - intros Hd. rewrite Hx, Hy. unfold set_min_swipe_lengths.
    assert (Hneg : (0 <? atoi (property_get lcd_density "0")) = false)
      by (apply Z.ltb_ge; exact Hd).
    rewrite Hneg. split; reflexivity.
Qed.

Lemma Init_thresholds_truncate_witness :
  0 < atoi (property_get (Some "213"%string) "0") <= 65535 /\
  min_x_swipe_px (Init (Some "213"%string) fresh_ui) = 106 /\
  min_y_swipe_px (Init (Some "213"%string) fresh_ui) = 63 /\
  atoi (property_get None "0") <= 0 /\
  min_x_swipe_px (Init None fresh_ui) = 100 /\
  min_y_swipe_px (Init None fresh_ui) = 80.
Proof.
  assert (H : 0 < atoi (property_get (Some "213"%string) "0") <= 65535)
    by (vm_compute; split; [reflexivity | discriminate]).
  assert (H0 : atoi (property_get None "0") <= 0)
    by (vm_compute; discriminate).
  split; [exact H |].
  destruct (Init_thresholds_truncate (Some "213"%string) fresh_ui)
    as (Hpos & _).
  destruct (Hpos H) as [Hx Hy].
  destruct (Init_thresholds_truncate None fresh_ui) as (_ & Hkeep & _).
  destruct (Hkeep H0) as [Hx0 Hy0].
  split; [exact Hx |]. split; [exact Hy |]. split; [exact H0 |].
  split; [exact Hx0 | exact Hy0].
Defined.

(** ** Frame lemmas: what each method leaves alone *)

Lemma EnqueueKey_registered (k : Z) (st : RecoveryUI) :
  registered (calls (EnqueueKey k st)) = registered (calls st).
Proof.
  unfold EnqueueKey. split_ifs; rewrite ?registered_app; cbn;
    rewrite ?app_nil_r; reflexivity.
Qed.

Lemma EnqueueKey_key_last_down (k : Z) (st : RecoveryUI) :
  key_last_down (EnqueueKey k st) = key_last_down st.
Proof. unfold EnqueueKey. split_ifs; reflexivity. Qed.

Lemma EnqueueKey_rel_sum (k : Z) (st : RecoveryUI) :
  rel_sum (EnqueueKey k st) = rel_sum st.
Proof. unfold EnqueueKey. split_ifs; reflexivity. Qed.

Lemma CheckKey_calls (k : Z) (st : RecoveryUI) :
  calls (snd (CheckKey k st)) = calls st.
Proof.
  unfold CheckKey, IsKeyPressed. cbn [fst snd]. split_ifs; reflexivity.
Qed.

Lemma CheckKey_key_last_down (k : Z) (st : RecoveryUI) :
  key_last_down (snd (CheckKey k st)) = key_last_down st.
Proof.
  unfold CheckKey, IsKeyPressed. cbn [fst snd]. split_ifs; reflexivity.
Qed.

Lemma CheckKey_rel_sum (k : Z) (st : RecoveryUI) :
  rel_sum (snd (CheckKey k st)) = rel_sum st.
Proof.
  unfold CheckKey, IsKeyPressed. cbn [fst snd]. split_ifs; reflexivity.
Qed.

Lemma CheckKey_accesses (k : Z) (st : RecoveryUI) :
  accesses (snd (CheckKey k st)) = accesses st ++ [at_key_pressed KEY_POWER].
Proof.
  unfold CheckKey, IsKeyPressed. cbn [fst snd]. split_ifs; reflexivity.
Qed.

Section DispatcherFacts.

Variable no_mount : bool.
Variables fb_w fb_h : Z.
Variable scale : Z -> Z -> Z -> Z.

Lemma process_key_registered (k u : Z) (st : RecoveryUI) :
  registered (calls (process_key no_mount k u st)) =
    registered (calls st) ++
      (if (u =? 0) && (key_last_down st =? k) then [k] else []).
Proof.
  unfold process_key, process_key_locked.
  destruct (u =? 0) eqn:Hu; cbn [negb andb].
  - cbn [key_last_down set_key_pressed subscript set_accesses key_long_press].
    destruct (key_last_down st =? k) eqn:Hk.
    + with_CheckKey CheckKey_calls.
      destruct action; rewrite ?EnqueueKey_registered;
        try destruct no_mount; cbn [calls emit set_calls];
        rewrite ?registered_app; cbn;
        match goal with H : calls _ = _ |- _ => rewrite H end;
        cbn; rewrite ?registered_app; cbn;
        rewrite ?app_nil_r, <- ?app_assoc; reflexivity.
    + rewrite app_nil_r. reflexivity.
  - cbn. rewrite registered_app. cbn. rewrite !app_nil_r. reflexivity.
Qed.

Lemma process_key_key_last_down (k u : Z) (st : RecoveryUI) :
  key_last_down (process_key no_mount k u st) = if u =? 0 then -1 else k.
Proof.
  unfold process_key, process_key_locked.
  destruct (u =? 0) eqn:Hu; cbn [negb]; [| reflexivity].
  cbn [key_last_down set_key_pressed subscript set_accesses key_long_press].
  destruct (key_last_down st =? k) eqn:Hk; [| reflexivity].
  with_CheckKey CheckKey_key_last_down.
  destruct action; rewrite ?EnqueueKey_key_last_down;
    try destruct no_mount; cbn; assumption.
Qed.

Lemma process_key_rel_sum (k u : Z) (st : RecoveryUI) :
  rel_sum (process_key no_mount k u st) = rel_sum st.
Proof.
  unfold process_key, process_key_locked.
  destruct (u =? 0) eqn:Hu; cbn [negb]; [| reflexivity].
  cbn [key_last_down set_key_pressed subscript set_accesses key_long_press].
  destruct (key_last_down st =? k) eqn:Hk; [| reflexivity].
  with_CheckKey CheckKey_rel_sum.
  destruct action; rewrite ?EnqueueKey_rel_sum;
    try destruct no_mount; cbn; assumption.
Qed.

Lemma query_touch_maxima_frame (fd : input_fd) (st : RecoveryUI) :
  rel_sum (query_touch_maxima fd st) = rel_sum st /\
  calls (query_touch_maxima fd st) = calls st /\
  accesses (query_touch_maxima fd st) = accesses st.
Proof. unfold query_touch_maxima. split_ifs; auto. Qed.

Lemma process_swipe_rel_sum (fd : input_fd) (ev : input_event)
    (st : RecoveryUI) :
  rel_sum (process_swipe fb_w fb_h scale fd ev st) = rel_sum st.
Proof.
  destruct (query_touch_maxima_frame fd st) as (Hq & _).
  unfold process_swipe.
  split_ifs; rewrite ?EnqueueKey_rel_sum; cbn; exact Hq.
Qed.

Lemma process_swipe_registered (fd : input_fd) (ev : input_event)
    (st : RecoveryUI) :
  registered (calls (process_swipe fb_w fb_h scale fd ev st)) =
    registered (calls st).
Proof.
  destruct (query_touch_maxima_frame fd st) as (_ & Hq & _).
  unfold process_swipe.
  split_ifs; rewrite ?EnqueueKey_registered; cbn; rewrite Hq; reflexivity.
Qed.


(** ** Registration *)

(** C1, amended -- a down edge registers nothing; an up edge registers
    the key if and only if [key_last_down] holds that key's code at that
    moment; and the chord A down, B down, B up, A up registers B, the key
    pressed last and released first, and not A. *)
Theorem process_key_registers_last_down (A B : Z) (st : RecoveryUI) :
  0 <= A <= KEY_MAX -> A <> B ->
  (forall key updown s, updown <> 0 ->
     registered (calls (process_key no_mount key updown s)) =
       registered (calls s)) /\
  (forall key s,
     registered (calls (process_key no_mount key 0 s)) =
       registered (calls s) ++
         (if key_last_down s =? key then [key] else [])) /\
  registered (calls (chord no_mount A B st)) = registered (calls st) ++ [B] /\
  ~ In A [B].
Proof.
  intros HA Hne. split; [| split; [| split]].
  - intros key updown s Hu. rewrite process_key_registered.
    apply Z.eqb_neq in Hu. rewrite Hu. apply app_nil_r.
  - intros key s. rewrite process_key_registered. reflexivity.
  - unfold chord. rewrite !process_key_registered.
    rewrite !process_key_key_last_down.
    change (1 =? 0) with false. change (0 =? 0) with true. cbn [andb].
    rewrite Z.eqb_refl.
    assert (HA' : (-1 =? A) = false) by (apply Z.eqb_neq; lia).
    rewrite HA'. rewrite !app_nil_r. reflexivity.
  - intros [HB | []]. congruence.
Qed.

(** ** The trackball sum *)

(** Open [input_callback] and name the state [process_swipe] leaves, with
    what it keeps of the trackball sum and of the registrations. *)
Ltac after_process_swipe fd ev st :=
  unfold input_callback;
  pose proof (process_swipe_rel_sum fd ev st) as Hsw;
  pose proof (process_swipe_registered fd ev st) as Hreg;
  let st1 := fresh "st1" in
  match goal with
  | |- context [process_swipe ?w ?h ?sc fd ev st] =>
      set (st1 := process_swipe w h sc fd ev st) in *
  end;
  clearbody st1.

Ltac rel_y_case :=
  change (EV_REL =? EV_SYN) with false;
  change (EV_REL =? EV_REL) with true;
  change (REL_Y =? REL_Y) with true;
  change (EV_REL =? EV_KEY) with false;
  cbn [andb]; rewrite rel_sum_set_rel_sum;
  match goal with H : rel_sum _ = rel_sum _ |- _ => rewrite H end.

Ltac synthetic_key :=
  rewrite !process_key_registered, process_key_key_last_down;
  change (1 =? 0) with false; change (0 =? 0) with true; cbn [andb];
  rewrite Z.eqb_refl, calls_set_rel_sum;
  match goal with H : registered _ = registered _ |- _ => rewrite H end;
  rewrite app_nil_r; reflexivity.

Lemma input_callback_syn_keeps_rel_sum (fd : input_fd)
    (ev : input_event) (st : RecoveryUI) :
  ev_type ev = EV_SYN ->
  rel_sum (snd (input_callback no_mount fb_w fb_h scale fd (Some ev) st)) =
    rel_sum st.
Proof.
  after_process_swipe fd ev st.
  intros ->. change (EV_SYN =? EV_SYN) with true. cbn [snd]. exact Hsw.
Qed.

Lemma input_callback_other_resets_rel_sum (fd : input_fd)
    (ev : input_event) (st : RecoveryUI) :
  ev_type ev <> EV_SYN -> ev_type ev <> EV_REL ->
  rel_sum (snd (input_callback no_mount fb_w fb_h scale fd (Some ev) st)) = 0.
Proof.
  after_process_swipe fd ev st.
  intros Hsyn Hrel.
  apply Z.eqb_neq in Hsyn, Hrel. rewrite Hsyn, Hrel. cbn [snd].
  destruct ((ev_type ev =? EV_KEY) && (ev_code ev <=? KEY_MAX)).
  - rewrite process_key_rel_sum. reflexivity.
  - reflexivity.
Qed.

Lemma input_callback_rel_y_above (fd : input_fd)
    (ev : input_event) (st : RecoveryUI) :
  ev_type ev = EV_REL -> ev_code ev = REL_Y ->
  3 < wrap32 (rel_sum st + ev_value ev) ->
  rel_sum (snd (input_callback no_mount fb_w fb_h scale fd (Some ev) st)) = 0 /\
  registered
    (calls (snd (input_callback no_mount fb_w fb_h scale fd (Some ev) st))) =
    registered (calls st) ++ [KEY_DOWN].
Proof.
  after_process_swipe fd ev st.
  intros Hrel Hcode Hsum. rewrite Hrel, Hcode. rel_y_case.
  apply Z.ltb_lt in Hsum. rewrite Hsum. unfold snd.
  rewrite rel_sum_set_rel_sum, calls_set_rel_sum. split; [reflexivity |].
  synthetic_key.
Qed.

Lemma input_callback_rel_y_within (fd : input_fd)
    (ev : input_event) (st : RecoveryUI) :
  ev_type ev = EV_REL -> ev_code ev = REL_Y ->
  -3 <= wrap32 (rel_sum st + ev_value ev) <= 3 ->
  rel_sum (snd (input_callback no_mount fb_w fb_h scale fd (Some ev) st)) =
    wrap32 (rel_sum st + ev_value ev) /\
  registered
    (calls (snd (input_callback no_mount fb_w fb_h scale fd (Some ev) st))) =
    registered (calls st).
Proof.
  after_process_swipe fd ev st.
  intros Hrel Hcode Hsum. rewrite Hrel, Hcode. rel_y_case.
  assert (H3 : (3 <? wrap32 (rel_sum st + ev_value ev)) = false)
    by (apply Z.ltb_ge; lia).
  assert (H4 : (wrap32 (rel_sum st + ev_value ev) <? -3) = false)
    by (apply Z.ltb_ge; lia).
  rewrite H3, H4. unfold snd.
  rewrite rel_sum_set_rel_sum, calls_set_rel_sum.
  split; [reflexivity | exact Hreg].
Qed.

Lemma input_callback_rel_y_below (fd : input_fd) (ev : input_event)
    (st : RecoveryUI) :
  ev_type ev = EV_REL -> ev_code ev = REL_Y ->
  wrap32 (rel_sum st + ev_value ev) < -3 ->
  rel_sum (snd (input_callback no_mount fb_w fb_h scale fd (Some ev) st)) = 0 /\
  registered
    (calls (snd (input_callback no_mount fb_w fb_h scale fd (Some ev) st))) =
    registered (calls st) ++ [KEY_UP].
Proof.
  after_process_swipe fd ev st.
  intros Hrel Hcode Hsum. rewrite Hrel, Hcode. rel_y_case.
  assert (H3 : (3 <? wrap32 (rel_sum st + ev_value ev)) = false)
    by (apply Z.ltb_ge; lia).
  apply Z.ltb_lt in Hsum. rewrite H3, Hsum. unfold snd.
  rewrite rel_sum_set_rel_sum, calls_set_rel_sum. split; [reflexivity |].
  synthetic_key.
Qed.

Lemma input_callback_rel_other_axis (fd : input_fd) (ev : input_event)
    (st : RecoveryUI) :
  ev_type ev = EV_REL -> ev_code ev <> REL_Y ->
  rel_sum (snd (input_callback no_mount fb_w fb_h scale fd (Some ev) st)) =
    rel_sum st.
Proof.
  after_process_swipe fd ev st.
  intros Hrel Hcode. rewrite Hrel.
  apply Z.eqb_neq in Hcode. rewrite Hcode.
  change (EV_REL =? EV_SYN) with false.
  change (EV_REL =? EV_REL) with true.
  change (EV_REL =? EV_KEY) with false. cbn [andb snd]. exact Hsw.
Qed.

(** C6, amended -- an [EV_SYN] event leaves the trackball sum as it is
    (the callback returns before it looks at the sum); an event that is
    neither [EV_SYN] nor [EV_REL] sets it to zero; a [REL_Y] event whose
    value brings the sum above 3 (below -3) registers a press and release
    of [KEY_DOWN] ([KEY_UP]) and sets it to zero; any other [REL_Y] event
    adds its value, and an [EV_REL] event on another axis changes
    nothing. *)
Theorem input_callback_rel_sum (fd : input_fd) (ev : input_event)
    (st : RecoveryUI) :
  let st' :=
    snd (input_callback no_mount fb_w fb_h scale fd (Some ev) st) in
  let sum := wrap32 (rel_sum st + ev_value ev) in
  (ev_type ev = EV_SYN -> rel_sum st' = rel_sum st) /\
  (ev_type ev <> EV_SYN -> ev_type ev <> EV_REL -> rel_sum st' = 0) /\
  (ev_type ev = EV_REL -> ev_code ev = REL_Y -> 3 < sum ->
     rel_sum st' = 0 /\
     registered (calls st') = registered (calls st) ++ [KEY_DOWN]) /\
  (ev_type ev = EV_REL -> ev_code ev = REL_Y -> sum < -3 ->
     rel_sum st' = 0 /\
     registered (calls st') = registered (calls st) ++ [KEY_UP]) /\
  (ev_type ev = EV_REL -> ev_code ev = REL_Y -> -3 <= sum <= 3 ->
     rel_sum st' = sum /\ registered (calls st') = registered (calls st)) /\
  (ev_type ev = EV_REL -> ev_code ev <> REL_Y -> rel_sum st' = rel_sum st).
Proof.
  cbv zeta.
  split; [apply input_callback_syn_keeps_rel_sum |].
  split; [apply input_callback_other_resets_rel_sum |].
  split; [apply input_callback_rel_y_above |].
  split; [apply input_callback_rel_y_below |].
  split; [apply input_callback_rel_y_within |].
  apply input_callback_rel_other_axis.
Qed.

(** ** Subscripts *)

Lemma extends_refl (st st' : RecoveryUI) :
  accesses st' = accesses st -> extends st st'.
Proof. intros H. exists []. rewrite app_nil_r. auto. Qed.

Lemma extends_trans (st1 st2 st3 : RecoveryUI) :
  extends st1 st2 -> extends st2 st3 -> extends st1 st3.
Proof.
  intros (l1 & H1 & F1) (l2 & H2 & F2). exists (l1 ++ l2). split.
  - rewrite H2, H1, app_assoc. reflexivity.
  - apply Forall_app. auto.
Qed.

Lemma extends_step (st st' : RecoveryUI) (a : access) :
  accesses st' = accesses st ++ [a] -> key_pressed_in_range a ->
  extends st st'.
Proof. intros H Ha. exists [a]. auto. Qed.

Lemma EnqueueKey_extends (k : Z) (st : RecoveryUI) :
  extends st (EnqueueKey k st).
Proof.
  unfold EnqueueKey. split_ifs;
    try (apply extends_refl; reflexivity).
  eapply extends_step; [reflexivity | exact I].
Qed.

Lemma CheckKey_extends (k : Z) (st : RecoveryUI) :
  extends st (snd (CheckKey k st)).
Proof.
  eapply extends_step; [apply CheckKey_accesses |].
  unfold key_pressed_in_range, KEY_POWER, KEY_MAX. lia.
Qed.

Lemma process_key_extends (k u : Z) (st : RecoveryUI) :
  0 <= k <= KEY_MAX -> extends st (process_key no_mount k u st).
Proof.
  intros Hk.
  assert (Hfirst : forall s, accesses s = accesses st ++ [at_key_pressed k] ->
                             extends st s).
  { intros s Hs. eapply extends_step; [exact Hs | exact Hk]. }
  unfold process_key, process_key_locked.
  destruct (u =? 0) eqn:Hu; cbn [negb]; [| apply Hfirst; reflexivity].
  cbn [key_last_down set_key_pressed subscript set_accesses key_long_press].
  destruct (key_last_down st =? k) eqn:Hl; [| apply Hfirst; reflexivity].
  match goal with
  | |- context [CheckKey ?k ?s] =>
      pose proof (CheckKey_extends k s) as Hpolicy;
      assert (Hs : extends st s) by (apply Hfirst; reflexivity);
      destruct (CheckKey k s) as [action st_policy]
  end.
  cbn [snd] in Hpolicy.
  pose proof (extends_trans _ _ _ Hs Hpolicy) as Hst.
  destruct action; try destruct no_mount;
    try exact Hst;
    try (eapply extends_trans; [exact Hst |];
         first [apply EnqueueKey_extends | apply extends_refl; reflexivity]).
Qed.

Lemma process_swipe_extends (fd : input_fd) (ev : input_event)
    (st : RecoveryUI) :
  extends st (process_swipe fb_w fb_h scale fd ev st).
Proof.
  assert (Hq : extends st (query_touch_maxima fd st)).
  { apply extends_refl. apply query_touch_maxima_frame. }
  assert (Hsame : forall s, accesses s = accesses (query_touch_maxima fd st) ->
                            extends st s).
  { intros s Hs. eapply extends_trans; [exact Hq |].
    apply extends_refl. exact Hs. }
  assert (Henq : forall k s s',
             accesses s = accesses (query_touch_maxima fd st) ->
             accesses s' = accesses (EnqueueKey k s) -> extends st s').
  { intros k s s' Hs Hs'. eapply extends_trans; [apply (Hsame s Hs) |].
    eapply extends_trans; [apply (EnqueueKey_extends k) |].
    apply extends_refl. exact Hs'. }
  unfold process_swipe.
  split_ifs;
    first [ apply Hsame; reflexivity
          | eapply Henq; [| reflexivity]; reflexivity ].
Qed.

(** C10 -- whatever event (with a code that fits its unsigned field) the
    input callback handles, from whatever state, every subscript it
    applies to [key_pressed] lies in [0, KEY_MAX]: an [EV_KEY] event
    reaches [process_key] only with a code of at most [KEY_MAX], the
    trackball handler passes [KEY_UP] and [KEY_DOWN], and [CheckKey]
    looks up [KEY_POWER]. *)
Theorem input_callback_key_pressed_in_range (fd : input_fd)
    (ev : input_event) (st : RecoveryUI) :
  0 <= ev_code ev ->
  exists l,
    accesses (snd (input_callback no_mount fb_w fb_h scale fd (Some ev) st))
      = accesses st ++ l /\
    forall i, In (at_key_pressed i) l -> 0 <= i <= KEY_MAX.
Proof.
  intros Hcode.
  assert (Hgoal : extends st
            (snd (input_callback no_mount fb_w fb_h scale fd (Some ev) st))).
  { unfold input_callback.
    pose proof (process_swipe_extends fd ev st) as Hsw.
    set (st1 := process_swipe fb_w fb_h scale fd ev st) in *.
    clearbody st1.
    assert (Hup : 0 <= KEY_UP <= KEY_MAX) by (unfold KEY_UP, KEY_MAX; lia).
    assert (Hdown : 0 <= KEY_DOWN <= KEY_MAX)
      by (unfold KEY_DOWN, KEY_MAX; lia).
    destruct (ev_type ev =? EV_SYN); [exact Hsw |].
    unfold snd.
    match goal with
    | |- extends st (if ?c then process_key _ _ _ ?s else ?s) =>
        assert (Hs : extends st s); [| destruct c eqn:Hc]
    end.
    - destruct (ev_type ev =? EV_REL).
      + destruct (ev_code ev =? REL_Y); [| exact Hsw].
        assert (Hadd : forall v, extends st (set_rel_sum v st1)).
        { intros v. eapply extends_trans; [exact Hsw |].
          apply extends_refl. reflexivity. }
        assert (Hkey : forall k s, 0 <= k <= KEY_MAX -> extends st s ->
                  extends st
                    (set_rel_sum 0
                       (process_key no_mount k 0
                          (process_key no_mount k 1 s)))).
        { intros k s Hk Hs.
          eapply extends_trans; [exact Hs |].
          eapply extends_trans; [apply (process_key_extends k 1 s Hk) |].
          eapply extends_trans; [apply (process_key_extends k 0 _ Hk) |].
          apply extends_refl. apply accesses_set_rel_sum. }
        destruct (3 <? _); [apply Hkey; auto |].
        destruct (_ <? -3); [apply Hkey; auto |]. apply Hadd.
      + eapply extends_trans; [exact Hsw |]. apply extends_refl. reflexivity.
    - eapply extends_trans; [exact Hs |]. apply process_key_extends.
      apply andb_prop in Hc as [_ Hmax]. apply Z.leb_le in Hmax. lia.
    - exact Hs. }
  destruct Hgoal as (l & Hl & Hall). exists l. split; [exact Hl |].
  intros i Hi. rewrite Forall_forall in Hall.
  apply (Hall (at_key_pressed i)). apply list_elem_of_In. exact Hi.
Qed.

End DispatcherFacts.

(** C1, as stated, fails: in the chord volume-down down, volume-up down,
    volume-up up, volume-down up, the key registered is volume-up (B), and
    volume-down (A) is not registered. *)
Lemma chord_registers_B_not_A :
  registered
    (calls (chord false KEY_VOLUMEDOWN KEY_VOLUMEUP fresh_ui)) =
    [KEY_VOLUMEUP] /\
  registered
    (calls (chord false KEY_VOLUMEDOWN KEY_VOLUMEUP fresh_ui)) <>
    [KEY_VOLUMEDOWN].
Proof. vm_compute. split; [reflexivity | discriminate]. Qed.

Lemma process_key_registers_last_down_witness :
  (0 <= KEY_VOLUMEDOWN <= KEY_MAX /\ KEY_VOLUMEDOWN <> KEY_VOLUMEUP) /\
  registered (calls (chord false KEY_VOLUMEDOWN KEY_VOLUMEUP fresh_ui)) =
    registered (calls fresh_ui) ++ [KEY_VOLUMEUP].
Proof.
  assert (H1 : 0 <= KEY_VOLUMEDOWN <= KEY_MAX)
    by (vm_compute; split; discriminate).
  assert (H2 : KEY_VOLUMEDOWN <> KEY_VOLUMEUP) by (vm_compute; discriminate).
  split; [split; assumption |].
  destruct (process_key_registers_last_down false KEY_VOLUMEDOWN KEY_VOLUMEUP
              fresh_ui H1 H2) as (_ & _ & Hchord & _).
  exact Hchord.
Defined.

(** C6, as stated, fails: an [EV_SYN] event does not reset the trackball
    sum; a sum of 2 is still 2 after a [SYN_REPORT]. *)
Lemma syn_report_keeps_rel_sum :
  rel_sum (snd (input_callback false 1080 1920 exact_scale no_abs_fd
                  (Some syn_report) rolling_ui)) = 2 /\
  rel_sum (snd (input_callback false 1080 1920 exact_scale no_abs_fd
                  (Some syn_report) rolling_ui)) <> 0.
Proof. vm_compute. split; [reflexivity | discriminate]. Qed.

Lemma input_callback_rel_sum_witness :
  (ev_type syn_report = EV_SYN /\
   rel_sum (snd (input_callback false 1080 1920 exact_scale no_abs_fd
                   (Some syn_report) rolling_ui)) = rel_sum rolling_ui) /\
  ((ev_type (mkEvent EV_KEY KEY_POWER 1) <> EV_SYN /\
    ev_type (mkEvent EV_KEY KEY_POWER 1) <> EV_REL) /\
   rel_sum (snd (input_callback false 1080 1920 exact_scale no_abs_fd
                   (Some (mkEvent EV_KEY KEY_POWER 1)) rolling_ui)) = 0) /\
  ((ev_type (trackball 2) = EV_REL /\ ev_code (trackball 2) = REL_Y /\
    3 < wrap32 (rel_sum rolling_ui + ev_value (trackball 2))) /\
   rel_sum (snd (input_callback false 1080 1920 exact_scale no_abs_fd
                   (Some (trackball 2)) rolling_ui)) = 0).
Proof.
  pose proof (input_callback_rel_sum false 1080 1920 exact_scale no_abs_fd
                syn_report rolling_ui) as Hsyn.
  pose proof (input_callback_rel_sum false 1080 1920 exact_scale no_abs_fd
                (mkEvent EV_KEY KEY_POWER 1) rolling_ui) as Hkey.
  pose proof (input_callback_rel_sum false 1080 1920 exact_scale no_abs_fd
                (trackball 2) rolling_ui) as Hrel.
  cbv zeta in Hsyn, Hkey, Hrel.
  destruct Hsyn as (Hsyn & _).
  destruct Hkey as (_ & Hkey & _).
  destruct Hrel as (_ & _ & Hrel & _).
  assert (E1 : ev_type syn_report = EV_SYN) by reflexivity.
  assert (E2 : ev_type (mkEvent EV_KEY KEY_POWER 1) <> EV_SYN)
    by (vm_compute; discriminate).
  assert (E3 : ev_type (mkEvent EV_KEY KEY_POWER 1) <> EV_REL)
    by (vm_compute; discriminate).
  assert (E4 : ev_type (trackball 2) = EV_REL) by reflexivity.
  assert (E5 : ev_code (trackball 2) = REL_Y) by reflexivity.
  assert (E6 : 3 < wrap32 (rel_sum rolling_ui + ev_value (trackball 2)))
    by (vm_compute; reflexivity).
  split; [split; [exact E1 | exact (Hsyn E1)] |].
  split; [split; [split; assumption | exact (Hkey E2 E3)] |].
  split; [repeat split; assumption | exact (proj1 (Hrel E4 E5 E6))].
Defined.

Lemma input_callback_key_pressed_in_range_witness :
  0 <= ev_code (mkEvent EV_KEY KEY_POWER 1) /\
  exists l,
    accesses (snd (input_callback false 1080 1920 exact_scale no_abs_fd
                     (Some (mkEvent EV_KEY KEY_POWER 1)) fresh_ui)) =
      accesses fresh_ui ++ l /\
    forall i, In (at_key_pressed i) l -> 0 <= i <= KEY_MAX.
Proof.
  assert (H : 0 <= ev_code (mkEvent EV_KEY KEY_POWER 1))
    by (vm_compute; discriminate).
  split; [exact H |].
  exact (input_callback_key_pressed_in_range false 1080 1920 exact_scale
           no_abs_fd (mkEvent EV_KEY KEY_POWER 1) fresh_ui H).
Defined.

(** ** The bound on the key queue *)

Lemma EnqueueKey_bounded (k : Z) (st : RecoveryUI) :
  queue_bounded st -> queue_bounded (EnqueueKey k st).
Proof.
  unfold queue_bounded, EnqueueKey, queue_max. intros H.
  destruct (dialog_showing st); [destruct (dialog_dismissable st); exact H |].
  destruct (key_queue_len st <? 256) eqn:Hlt; [| exact H].
  apply Z.ltb_lt in Hlt. cbn.
  rewrite wrap32_in_range by (unfold INT_MIN, INT_MAX; lia). lia.
Qed.

Lemma FlushKeys_bounded (st : RecoveryUI) : queue_bounded (FlushKeys st).
Proof. unfold queue_bounded, FlushKeys, queue_max. cbn. lia. Qed.

Lemma WaitKey_take_bounded (st : RecoveryUI) :
  queue_bounded st ->
  exists key st', WaitKey_take st = returns key st' /\ queue_bounded st'.
Proof.
  unfold queue_bounded, WaitKey_take, queue_max. intros H.
  destruct (0 <? key_queue_len st) eqn:Hpos.
  - apply Z.ltb_lt in Hpos. eexists _, _. split; [reflexivity |].
    cbn. rewrite wrap32_in_range by (unfold INT_MIN, INT_MAX; lia).
    destruct (0 <? key_queue_len st - 1); cbn; lia.
  - eexists _, _. split; [reflexivity | exact H].
Qed.

Lemma CancelWaitKey_bounded_with_room (st : RecoveryUI) :
  0 <= key_queue_len st < queue_max -> queue_bounded (CancelWaitKey st).
Proof.
  unfold queue_bounded, CancelWaitKey, queue_max. intros H. cbn.
  rewrite wrap32_in_range by (unfold INT_MIN, INT_MAX; lia). lia.
Qed.

(** C2 -- [CancelWaitKey] does not look at the capacity: on a full queue it
    stores through subscript 256, one past the last element of
    [key_queue], and raises [key_queue_len] to 257, so the bound that
    [EnqueueKey], [FlushKeys] and the end of [WaitKey] keep is broken. *)
Theorem CancelWaitKey_overflows_full_queue (st : RecoveryUI) :
  key_queue_len st = queue_max ->
  key_queue_len (CancelWaitKey st) = queue_max + 1 /\
  ~ queue_bounded (CancelWaitKey st) /\
  accesses (CancelWaitKey st) = accesses st ++ [at_key_queue queue_max].
Proof.
  intros Hfull. unfold queue_bounded, CancelWaitKey. cbn. rewrite Hfull.
  change (wrap32 (queue_max + 1)) with (queue_max + 1).
  repeat split. lia.
Qed.

Lemma CancelWaitKey_overflows_full_queue_witness :
  key_queue_len full_ui = queue_max /\
  key_queue_len (CancelWaitKey full_ui) = 257 /\
  in_bounds (key_queue full_ui) 256 = false.
Proof.
  assert (H : key_queue_len full_ui = queue_max) by reflexivity.
  split; [exact H |].
  split; [exact (proj1 (CancelWaitKey_overflows_full_queue full_ui H)) |].
  reflexivity.
Defined.

(** ** The foreground waiter's time-out *)

Lemma VolumesChanged_unset (st : RecoveryUI) :
  v_changed st = 0 -> VolumesChanged st = (false, st).
Proof. intros H. unfold VolumesChanged. rewrite H. reflexivity. Qed.

Section WaitKeyFacts.

Variable no_mount : bool.
Variables fb_w fb_h : Z.
Variable scale : Z -> Z -> Z -> Z.
Variable cable : nat -> option string.

Lemma WaitKey_loop_timed_out (wakes : list wake) (slice : nat)
    (timeouts : Z) (st : RecoveryUI) :
  key_queue_len st = 0 -> v_changed st = 0 ->
  WaitKey_loop no_mount fb_w fb_h scale (timed_out :: wakes) cable slice
    timeouts st =
  (if fst (WaitKey_again (cable slice) (wrap32 (timeouts - 1)) st)
   then WaitKey_loop no_mount fb_w fb_h scale wakes cable (S slice)
          (wrap32 (timeouts - 1))
          (snd (WaitKey_again (cable slice) (wrap32 (timeouts - 1)) st))
   else WaitKey_take
          (snd (WaitKey_again (cable slice) (wrap32 (timeouts - 1)) st))).
Proof.
  intros Hlen Hvol. cbn [WaitKey_loop]. rewrite Hlen.
  change (0 =? 0) with true. cbv iota.
  cbn [timed_out wake_others wake_rc fold_left].
  rewrite (VolumesChanged_unset st Hvol).
  change (ETIMEDOUT =? ETIMEDOUT) with true. cbv iota.
  destruct (WaitKey_again (cable slice) (wrap32 (timeouts - 1)) st)
    as [again st3].
  reflexivity.
Qed.

Lemma WaitKey_again_counting (state_file : option string) (timeouts : Z)
    (st : RecoveryUI) :
  timeouts <> 0 -> key_queue_len st = 0 ->
  WaitKey_again state_file timeouts st = (true, st).
Proof.
  intros Ht Hlen. unfold WaitKey_again.
  apply Z.eqb_neq in Ht. rewrite Ht. cbn. rewrite Hlen. reflexivity.
Qed.

(** While [timeouts] stays away from zero the cable is not looked at. *)
Lemma WaitKey_loop_counts_down (k : nat) :
  forall (wakes : list wake) (slice : nat) (timeouts : Z) (st : RecoveryUI),
  key_queue_len st = 0 -> v_changed st = 0 ->
  Z.of_nat k < timeouts <= INT_MAX ->
  WaitKey_loop no_mount fb_w fb_h scale (repeat timed_out k ++ wakes) cable
    slice timeouts st =
  WaitKey_loop no_mount fb_w fb_h scale wakes cable (k + slice)
    (timeouts - Z.of_nat k) st.
Proof.
  induction k as [| k IH]; intros wakes slice timeouts st Hlen Hvol Ht.
  - cbn [repeat app Nat.add]. f_equal. cbn. lia.
  - cbn [repeat app]. rewrite WaitKey_loop_timed_out by assumption.
    unfold INT_MAX in Ht.
    rewrite wrap32_in_range by (unfold INT_MIN, INT_MAX; lia).
    rewrite WaitKey_again_counting by (assumption || lia).
    cbn [fst snd]. rewrite IH by (unfold INT_MAX; assumption || lia).
    f_equal; lia.
Qed.

(** Once [timeouts] has gone below zero it never tests false again. *)
Lemma WaitKey_loop_below_zero (k : nat) :
  forall (slice : nat) (timeouts : Z) (st : RecoveryUI),
  key_queue_len st = 0 -> v_changed st = 0 ->
  timeouts <= 0 -> INT_MIN <= timeouts - Z.of_nat k ->
  WaitKey_loop no_mount fb_w fb_h scale (repeat timed_out k) cable slice
    timeouts st = still_waiting st.
Proof.
  induction k as [| k IH]; intros slice timeouts st Hlen Hvol Ht Hmin.
  - cbn [repeat WaitKey_loop]. rewrite Hlen. reflexivity.
  - cbn [repeat]. rewrite WaitKey_loop_timed_out by assumption.
    unfold INT_MIN in Hmin.
    rewrite wrap32_in_range by (unfold INT_MIN, INT_MAX; lia).
    rewrite WaitKey_again_counting by (assumption || lia).
    cbn [fst snd]. apply IH; try assumption; unfold INT_MIN; lia.
Qed.

(** The part of the claim the code does keep: a cable found unplugged
    when the 120 slices are over ends the wait. *)
Lemma WaitKey_times_out_unplugged (wakes : list wake) (st : RecoveryUI) :
  key_queue_len st = 0 -> v_changed st = 0 ->
  fst (usb_connected (cable 120%nat) st) = false ->
  WaitKey no_mount fb_w fb_h scale (repeat timed_out 120 ++ wakes) cable st
    = returns (-1) (emit open_android_usb_state st).
Proof.
  intros Hlen Hvol Hcable. unfold WaitKey, UI_WAIT_KEY_TIMEOUT_SEC.
  change (repeat timed_out 120) with (repeat timed_out 119 ++ [timed_out]).
  rewrite <- app_assoc.
  rewrite WaitKey_loop_counts_down
    by (assumption || (unfold INT_MAX; lia)).
  cbn [app]. rewrite WaitKey_loop_timed_out by assumption.
  change (wrap32 (120 - Z.of_nat 119 - 1)) with 0.
  change (119 + 1)%nat with 120%nat.
  unfold WaitKey_again. change (negb (0 =? 0)) with false. cbv iota.
  destruct (usb_connected (cable 120%nat) st) as [connected st1] eqn:Husb.
  cbn [fst] in Hcable. subst connected. cbn [andb fst snd].
  unfold usb_connected in Husb.
  assert (Hst1 : st1 = emit open_android_usb_state st).
  { destruct (cable 120%nat) as [[| c s] |]; congruence. }
  subst st1. unfold WaitKey_take.
  change (key_queue_len (emit open_android_usb_state st))
    with (key_queue_len st).
  rewrite Hlen. reflexivity.
Qed.

(** C3 -- the cable is looked at once, when [timeouts] reaches zero after
    the 120th slice.  If it is plugged in then, [timeouts] goes on to -1,
    -2, ... and tests true without the cable being looked at again: with
    the queue empty the waiter sleeps on through any number [n] of
    further slices, whatever the cable does in them. *)
Theorem WaitKey_cable_checked_once (n : nat) (st : RecoveryUI) :
  key_queue_len st = 0 -> v_changed st = 0 ->
  fst (usb_connected (cable 120%nat) st) = true ->
  Z.of_nat n < 2 ^ 31 ->
  WaitKey no_mount fb_w fb_h scale (repeat timed_out (120 + n)) cable st =
    still_waiting (emit open_android_usb_state st).
Proof.
  intros Hlen Hvol Hcable Hn. unfold WaitKey, UI_WAIT_KEY_TIMEOUT_SEC.
  change (120 + n)%nat with (119 + S n)%nat.
  rewrite repeat_app.
  change (repeat timed_out (S n)) with (timed_out :: repeat timed_out n).
  rewrite WaitKey_loop_counts_down
    by (assumption || (unfold INT_MAX; lia)).
  rewrite WaitKey_loop_timed_out by assumption.
  change (wrap32 (120 - Z.of_nat 119 - 1)) with 0.
  change (119 + 1)%nat with 120%nat.
  unfold WaitKey_again. change (negb (0 =? 0)) with false. cbv iota.
  destruct (usb_connected (cable 120%nat) st) as [connected st1] eqn:Husb.
  cbn [fst] in Hcable. subst connected. cbn [andb fst snd].
  unfold usb_connected in Husb.
  assert (Hst1 : st1 = emit open_android_usb_state st).
  { destruct (cable 120%nat) as [[| c s] |]; congruence. }
  subst st1.
  change (key_queue_len (emit open_android_usb_state st))
    with (key_queue_len st).
  rewrite Hlen. change (0 =? 0) with true. cbv iota.
  apply WaitKey_loop_below_zero; try assumption; unfold INT_MIN; lia.
Qed.

End WaitKeyFacts.

Lemma WaitKey_cable_checked_once_witness :
  (key_queue_len fresh_ui = 0 /\ v_changed fresh_ui = 0 /\
   fst (usb_connected (unplugged_after 120 120) fresh_ui) = true /\
   Z.of_nat 60 < 2 ^ 31) /\
  unplugged_after 120 121 = Some "DISCONNECTED"%string /\
  WaitKey false 1080 1920 exact_scale (repeat timed_out (120 + 60))
    (unplugged_after 120) fresh_ui =
    still_waiting (emit open_android_usb_state fresh_ui).
Proof.
  assert (H1 : key_queue_len fresh_ui = 0) by reflexivity.
  assert (H2 : v_changed fresh_ui = 0) by reflexivity.
  assert (H3 : fst (usb_connected (unplugged_after 120 120) fresh_ui) = true)
    by reflexivity.
  assert (H4 : Z.of_nat 60 < 2 ^ 31) by (vm_compute; reflexivity).
  split; [repeat split; assumption |].
  split; [reflexivity |].
  exact (WaitKey_cable_checked_once false 1080 1920 exact_scale
           (unplugged_after 120) 60 fresh_ui H1 H2 H3 H4).
Defined.

(** ** Scenarios *)

(** Seven clean presses of power: the first six are queued, the seventh
    reboots. *)
Example seven_powers_reboot :
  List.filter (fun c => match c with android_reboot => true | _ => false end)
    (calls (presses 7 KEY_POWER fresh_ui)) = [android_reboot] /\
  key_queue_len (presses 7 KEY_POWER fresh_ui) = 6.
Proof. vm_compute. split; reflexivity. Qed.

(** Four trackball steps of +1 queue one [KEY_DOWN]. *)
Example trackball_four_steps :
  let step st :=
    snd (input_callback false 1080 1920 exact_scale no_abs_fd
           (Some (trackball 1)) st) in
  let st := step (step (step (step fresh_ui))) in
  key_queue_len st = 1 /\ array_load (key_queue st) 0 = KEY_DOWN /\
  rel_sum st = 0.
Proof. vm_compute. repeat split. Qed.

(** A cancel, a volume change and a key, each arriving during the first
    slice of the wait. *)
Example WaitKey_wakes :
  (exists st, WaitKey false 1080 1920 exact_scale
                [mkWake [cancel_wait_key] 0] (unplugged_after 0) fresh_ui =
              returns (-2) st) /\
  (exists st, WaitKey false 1080 1920 exact_scale
                [mkWake [notify_volumes_changed] ETIMEDOUT]
                (unplugged_after 0) fresh_ui =
              returns_kRefresh st) /\
  (exists st, WaitKey false 1080 1920 exact_scale
                [mkWake [input_event_arrives no_abs_fd
                           (Some (mkEvent EV_KEY KEY_BACK 1));
                         input_event_arrives no_abs_fd
                           (Some (mkEvent EV_KEY KEY_BACK 0))] 0]
                (unplugged_after 0) fresh_ui =
              returns KEY_BACK st /\ key_queue_len st = 0).
Proof.
  split; [| split]; eexists; vm_compute; [| | split]; reflexivity.
Qed.

(** * Further properties of the code *)

(** ** string_split *)

Lemma cut_at_space_Some (s field rest : string) :
  cut_at_space s = Some (field, rest) ->
  s = (field ++ " " ++ rest)%string /\ has_space field = false.
Proof.
  revert field rest. induction s as [| c s IH]; intros field rest H.
  - discriminate.
  - cbn [cut_at_space] in H. destruct (Ascii.eqb c " ") eqn:Hc.
    + apply Ascii.eqb_eq in Hc. inversion H; subst. split; reflexivity.
    + destruct (cut_at_space s) as [[f r] |]; [| discriminate].
      inversion H; subst. destruct (IH f rest eq_refl) as [-> Hf].
      split; [reflexivity |]. cbn [has_space]. rewrite Hc, Hf. reflexivity.
Qed.

Lemma cut_at_space_None (s : string) :
  cut_at_space s = None -> has_space s = false.
Proof.
  induction s as [| c s IH]; intros H; [reflexivity |].
  cbn [cut_at_space] in H. cbn [has_space].
  destruct (Ascii.eqb c " "); [discriminate |].
  destruct (cut_at_space s) as [[f r] |]; [discriminate |]. auto.
Qed.

Lemma join_fields_cons (f : string) (l : list string) :
  l <> [] -> join_fields (f :: l) = (f ++ " " ++ join_fields l)%string.
Proof. destruct l; [congruence | reflexivity]. Qed.

(** What the loop adds to the fields it was given. *)
Lemma string_split_loop_spec (turns : nat) :
  forall (s : string) (acc : list string) (n maxfields : Z),
  exists l,
    string_split_loop turns s acc n maxfields =
      (acc ++ l, n + Z.of_nat (length l)) /\
    l <> [] /\
    join_fields l = s /\
    Forall (fun f => has_space f = false) (removelast l) /\
    Z.of_nat (length l) <= Z.max 1 (maxfields - n) /\
    (n + Z.of_nat (length l) < maxfields ->
     (length l <= turns)%nat ->
     Forall (fun f => has_space f = false) l).
Proof.
  assert (Hlast : forall s (acc : list string) n maxfields,
            (n + 1 < maxfields -> has_space s = false) ->
            exists l,
              (acc ++ [s], n + 1) = (acc ++ l, n + Z.of_nat (length l)) /\
              l <> [] /\ join_fields l = s /\
              Forall (fun f => has_space f = false) (removelast l) /\
              Z.of_nat (length l) <= Z.max 1 (maxfields - n) /\
              (n + Z.of_nat (length l) < maxfields ->
               Forall (fun f => has_space f = false) l)).
  { intros s acc n maxfields Hs. exists [s].
    cbn [length removelast join_fields].
    split; [reflexivity |]. split; [congruence |]. split; [reflexivity |].
    split; [constructor |]. split; [lia |].
    intros Hlt. constructor; [| constructor]. apply Hs; lia. }
  induction turns as [| turns IH]; intros s acc n maxfields.
  - exists [s]. cbn [string_split_loop length removelast join_fields].
    split; [reflexivity |]. split; [congruence |]. split; [reflexivity |].
    split; [constructor |]. split; [lia |].
    intros _ Hlen. lia.
  - cbn [string_split_loop].
    destruct (n + 1 <? maxfields) eqn:Hroom.
    + apply Z.ltb_lt in Hroom.
      destruct (cut_at_space s) as [[field rest] |] eqn:Hcut.
      * destruct (cut_at_space_Some _ _ _ Hcut) as [-> Hfield].
        destruct (IH rest (acc ++ [field]) (n + 1) maxfields)
          as (l & Heq & Hne & Hjoin & Hclean & Hlen & Hall).
        exists (field :: l). rewrite Heq, <- app_assoc. cbn [app length].
        split; [f_equal; lia |]. split; [congruence |].
        split; [rewrite join_fields_cons by exact Hne; rewrite Hjoin;
                reflexivity |].
        split; [| split].
        -- destruct l as [| f l']; [congruence |].
           change (removelast (field :: f :: l'))
             with (field :: removelast (f :: l')).
           constructor; assumption.
        -- lia.
        -- intros Hlt Hturns. constructor; [exact Hfield |].
           apply Hall; lia.
      * destruct (Hlast s acc n maxfields) as (l & H1 & H2 & H3 & H4 & H5 & H6).
        { intros _. apply cut_at_space_None. exact Hcut. }
        exists l. repeat (split; [assumption |]). intros Hlt _. auto.
    + apply Z.ltb_ge in Hroom.
      destruct (Hlast s acc n maxfields) as (l & H1 & H2 & H3 & H4 & H5 & H6).
      { intros Hlt. lia. }
      exists l. repeat (split; [assumption |]). intros Hlt _. auto.
Qed.

(** X1 -- [string_split] writes as many fields as it returns, at least one
    and, when [maxfields] is at least 1, at most [maxfields]: it stays
    inside the caller's array. *)
Theorem string_split_count (s : string) (maxfields : Z) :
  1 <= maxfields ->
  Z.of_nat (length (fst (string_split s maxfields))) =
    snd (string_split s maxfields) /\
  1 <= snd (string_split s maxfields) <= maxfields.
Proof.
  intros Hmax. unfold string_split.
  destruct (string_split_loop_spec (Z.to_nat maxfields) s [] 0 maxfields)
    as (l & Heq & Hne & _ & _ & Hlen & _).
  rewrite Heq. cbn [fst snd app].
  destruct l as [| f l]; [congruence |]. cbn [length] in *. lia.
Qed.

Lemma string_split_count_witness :
  1 <= 3 /\
  Z.of_nat (length (fst (string_split hello_line 3))) =
    snd (string_split hello_line 3) /\
  1 <= snd (string_split hello_line 3) <= 3.
Proof.
  assert (H : 1 <= 3) by lia.
  split; [exact H | exact (string_split_count hello_line 3 H)].
Defined.

(** X2 -- nothing of the line is lost: the fields, put together again with
    one space between them, give back the string that was split, whatever
    [maxfields] is. *)
Theorem string_split_join (s : string) (maxfields : Z) :
  join_fields (fst (string_split s maxfields)) = s.
Proof.
  unfold string_split.
  destruct (string_split_loop_spec (Z.to_nat maxfields) s [] 0 maxfields)
    as (l & Heq & _ & Hjoin & _).
  rewrite Heq. exact Hjoin.
Qed.

(** X3 -- every field but the last is free of spaces; and when fewer than
    [maxfields] fields come back, the last one is free of spaces too (the
    line had no more spaces to cut at). *)
Theorem string_split_fields_clean (s : string) (maxfields : Z) :
  Forall (fun f => has_space f = false)
    (removelast (fst (string_split s maxfields))) /\
  (snd (string_split s maxfields) < maxfields ->
   Forall (fun f => has_space f = false) (fst (string_split s maxfields))).
Proof.
  unfold string_split.
  destruct (string_split_loop_spec (Z.to_nat maxfields) s [] 0 maxfields)
    as (l & Heq & _ & _ & Hclean & Hlen & Hall).
  rewrite Heq. cbn [fst snd app]. split; [exact Hclean |].
  intros Hlt. apply Hall; lia.
Qed.

Lemma string_split_fields_clean_witness :
  snd (string_split "dialog dismiss" 3) < 3 /\
  Forall (fun f => has_space f = false)
    (fst (string_split "dialog dismiss" 3)).
Proof.
  assert (H : snd (string_split "dialog dismiss" 3) < 3)
    by (vm_compute; reflexivity).
  split; [exact H |].
  exact (proj2 (string_split_fields_clean "dialog dismiss" 3) H).
Defined.

(** ** The control socket's handler *)

Ltac handler_call :=
  first [ left; reflexivity
        | right; left; reflexivity
        | right; right; left; reflexivity
        | right; right; right; eexists; reflexivity ].

Ltac handler_calls := repeat (constructor; [handler_call |]); constructor.

(** X4 -- whatever arrives, the handler returns 0 and touches nothing of
    the object: the queue, the key state, the policy and the gesture
    state are as before; it only makes calls. *)
Theorem message_socket_client_event_frame (revents nread : Z) (buf : string)
    (st : RecoveryUI) :
  fst (message_socket_client_event revents nread buf st) = 0 /\
  exists l,
    snd (message_socket_client_event revents nread buf st) =
      set_calls (calls st ++ l) st /\
    Forall (fun c => c = ev_del_fd \/ c = DialogDismiss \/ c = client_Close \/
                     exists text, c = DialogShowInfo text) l.
Proof.
  assert (Hsame : st = set_calls (calls st ++ []) st).
  { rewrite app_nil_r. destruct st; reflexivity. }
  unfold message_socket_client_event.
  destruct (Z.land revents POLLIN =? 0).
  { split; [reflexivity |]. exists []. split; [exact Hsame | constructor]. }
  destruct (nread <=? 0).
  { split; [reflexivity |]. exists [ev_del_fd; DialogDismiss; client_Close].
    split.
    - unfold emit. cbn. rewrite <- !app_assoc. reflexivity.
    - handler_calls. }
  destruct (string_split buf 3) as [fields nfields].
  destruct (nfields <? 2).
  { split; [reflexivity |]. exists []. split; [exact Hsame | constructor]. }
  destruct (String.eqb (field fields 0) "dialog").
  2: { split; [reflexivity |]. exists []. split; [exact Hsame | constructor]. }
  split; [reflexivity |]. cbn [snd].
  destruct (String.eqb (field fields 1) "show" && (2 <? nfields));
    destruct (String.eqb (field fields 1) "dismiss").
  - exists [DialogShowInfo (field fields 2); DialogDismiss]. split.
    + unfold emit. cbn. rewrite <- !app_assoc. reflexivity.
    + handler_calls.
  - exists [DialogShowInfo (field fields 2)]. split; [reflexivity |].
    handler_calls.
  - exists [DialogDismiss]. split; [reflexivity |]. handler_calls.
  - exists []. split; [exact Hsame | constructor].
Qed.

Lemma string_split_3 (buf : string) :
  string_split buf 3 =
    match cut_at_space buf with
    | None => ([buf], 1)
    | Some (f0, rest) =>
        match cut_at_space rest with
        | None => ([f0; rest], 2)
        | Some (f1, rest') => ([f0; f1; rest'], 3)
        end
    end.
Proof.
  unfold string_split. change (Z.to_nat 3) with 3%nat.
  cbn [string_split_loop]. change (0 + 1 <? 3) with true. cbv iota.
  destruct (cut_at_space buf) as [[f0 rest] |]; [| reflexivity].
  change (0 + 1 + 1 <? 3) with true. cbv iota.
  destruct (cut_at_space rest) as [[f1 rest'] |]; reflexivity.
Qed.

(** X5 -- the command language: a readable, non-empty message that is
    neither [dialog show <text>] nor [dialog dismiss] nor
    [dialog dismiss <anything>] is ignored, the object is left exactly as
    it was. *)
Theorem message_socket_client_event_ignores (revents nread : Z)
    (buf : string) (st : RecoveryUI) :
  0 < nread ->
  (forall text, buf <> ("dialog show " ++ text)%string) ->
  buf <> "dialog dismiss"%string ->
  (forall text, buf <> ("dialog dismiss " ++ text)%string) ->
  message_socket_client_event revents nread buf st = (0, st).
Proof.
  intros Hn Hshow Hdis Hdis'. unfold message_socket_client_event.
  destruct (Z.land revents POLLIN =? 0); [reflexivity |].
  assert (Hle : (nread <=? 0) = false) by (apply Z.leb_gt; exact Hn).
  rewrite Hle, string_split_3.
  destruct (cut_at_space buf) as [[f0 rest] |] eqn:H0; [| reflexivity].
  destruct (cut_at_space_Some _ _ _ H0) as [Hbuf _].
  destruct (cut_at_space rest) as [[f1 rest'] |] eqn:H1.
  - destruct (cut_at_space_Some _ _ _ H1) as [Hrest _].
    change (3 <? 2) with false. cbv iota. cbn [field nth].
    destruct (String.eqb f0 "dialog") eqn:E0; [| reflexivity].
    apply String.eqb_eq in E0. subst f0 rest.
    destruct (String.eqb f1 "show") eqn:E1.
    { apply String.eqb_eq in E1. subst f1. exfalso.
      apply (Hshow rest'). exact Hbuf. }
    destruct (String.eqb f1 "dismiss") eqn:E2.
    { apply String.eqb_eq in E2. subst f1. exfalso.
      apply (Hdis' rest'). exact Hbuf. }
    reflexivity.
  - change (2 <? 2) with false. cbv iota. cbn [field nth].
    destruct (String.eqb f0 "dialog") eqn:E0; [| reflexivity].
    apply String.eqb_eq in E0. subst f0.
    rewrite andb_false_r.
    destruct (String.eqb rest "dismiss") eqn:E2.
    { apply String.eqb_eq in E2. subst rest. exfalso. apply Hdis.
      exact Hbuf. }
    reflexivity.
Qed.

Lemma message_socket_client_event_ignores_witness :
  0 < 15 /\
  message_socket_client_event POLLIN 15
    ("dialog dismiss" ++ LF)%string fresh_ui = (0, fresh_ui).
Proof.
  assert (H : 0 < 15) by lia.
  split; [exact H |].
  apply (message_socket_client_event_ignores POLLIN 15 _ fresh_ui H).
  - intros text. vm_compute. discriminate.
  - vm_compute. discriminate.
  - intros text. vm_compute. discriminate.
Defined.

(** X6 -- [dialog dismiss], alone or followed by a space and anything,
    makes the handler call [DialogDismiss] and nothing else. *)
Theorem message_socket_client_event_dismiss (revents nread : Z)
    (tail : string) (st : RecoveryUI) :
  Z.land revents POLLIN <> 0 -> 0 < nread ->
  message_socket_client_event revents nread "dialog dismiss" st =
    (0, emit DialogDismiss st) /\
  message_socket_client_event revents nread
    ("dialog dismiss " ++ tail)%string st = (0, emit DialogDismiss st).
Proof.
  intros Hin Hn. unfold message_socket_client_event.
  apply Z.eqb_neq in Hin. rewrite Hin.
  assert (Hle : (nread <=? 0) = false) by (apply Z.leb_gt; exact Hn).
  rewrite Hle. split; reflexivity.
Qed.

Lemma message_socket_client_event_dismiss_witness :
  (Z.land POLLIN POLLIN <> 0 /\ 0 < 15) /\
  message_socket_client_event POLLIN 15 "dialog dismiss" fresh_ui =
    (0, emit DialogDismiss fresh_ui).
Proof.
  assert (H1 : Z.land POLLIN POLLIN <> 0) by (vm_compute; discriminate).
  assert (H2 : 0 < 15) by lia.
  split; [split; assumption |].
  exact (proj1 (message_socket_client_event_dismiss POLLIN 15 "" fresh_ui
                  H1 H2)).
Defined.

(** ** Key state and the long-press timer *)

Lemma in_bounds_array_store (a : list Z) (i v j : Z) :
  in_bounds (array_store a i v) j = in_bounds a j.
Proof.
  unfold array_store, in_bounds.
  destruct ((0 <=? i) && (i <? Z.of_nat (length a))); [| reflexivity].
  rewrite length_insert. reflexivity.
Qed.

Lemma array_load_store (a : list Z) (i v j : Z) :
  in_bounds a i = true ->
  array_load (array_store a i v) j =
    if j =? i then v else array_load a j.
Proof.
  intros Hi. unfold array_load. rewrite in_bounds_array_store.
  unfold array_store. rewrite Hi. unfold in_bounds in *.
  apply andb_prop in Hi as [Hi0 Hi1].
  apply Z.leb_le in Hi0. apply Z.ltb_lt in Hi1.
  destruct (j =? i) eqn:Hji.
  - apply Z.eqb_eq in Hji. subst j.
    assert (H0 : (0 <=? i) = true) by (apply Z.leb_le; lia).
    assert (H1 : (i <? Z.of_nat (length a)) = true) by (apply Z.ltb_lt; lia).
    rewrite H0, H1. cbn [andb].
    rewrite list_lookup_insert_eq by lia. reflexivity.
  - apply Z.eqb_neq in Hji.
    destruct ((0 <=? j) && (j <? Z.of_nat (length a))) eqn:Hj;
      [| reflexivity].
    apply andb_prop in Hj as [Hj0 Hj1]. apply Z.leb_le in Hj0.
    rewrite list_lookup_insert_ne by lia. reflexivity.
Qed.

Lemma EnqueueKey_tracking (k : Z) (st : RecoveryUI) :
  key_pressed (EnqueueKey k st) = key_pressed st /\
  key_down_count (EnqueueKey k st) = key_down_count st /\
  key_long_press (EnqueueKey k st) = key_long_press st.
Proof. unfold EnqueueKey. split_ifs; auto. Qed.

Lemma CheckKey_tracking (k : Z) (st : RecoveryUI) :
  key_pressed (snd (CheckKey k st)) = key_pressed st /\
  key_down_count (snd (CheckKey k st)) = key_down_count st /\
  key_long_press (snd (CheckKey k st)) = key_long_press st.
Proof.
  unfold CheckKey, IsKeyPressed. cbn [fst snd]. split_ifs; auto.
Qed.

Section KeyFacts.

Variable no_mount : bool.

Lemma process_key_tracking (k u : Z) (st : RecoveryUI) :
  key_pressed (process_key no_mount k u st) =
    array_store (key_pressed st) k u /\
  key_down_count (process_key no_mount k u st) =
    (if u =? 0 then key_down_count st else wrap32 (key_down_count st + 1)) /\
  key_long_press (process_key no_mount k u st) =
    (if u =? 0 then key_long_press st else false).
Proof.
  unfold process_key, process_key_locked.
  destruct (u =? 0) eqn:Hu; cbn [negb]; [| auto].
  cbn [key_last_down set_key_pressed subscript set_accesses key_long_press].
  destruct (key_last_down st =? k) eqn:Hk; [| auto].
  with_CheckKey CheckKey_tracking.
  match goal with H : _ /\ _ /\ _ |- _ => destruct H as (Hp & Hc & Hl) end.
  destruct action; try destruct no_mount;
    try (destruct (EnqueueKey_tracking k st_policy) as (-> & -> & ->));
    cbn [key_pressed key_down_count key_long_press emit set_calls];
    rewrite ?Hp, ?Hc, ?Hl; auto.
Qed.

(** X7 -- the key state follows the edges: after a down or up edge of a key
    code inside the array, [IsKeyPressed] of that code says whether the
    edge was a down edge, and of any other code says what it said before. *)
Theorem IsKeyPressed_after_process_key (k u k' : Z) (st : RecoveryUI) :
  in_bounds (key_pressed st) k = true ->
  fst (IsKeyPressed k' (process_key no_mount k u st)) =
    if k' =? k then negb (u =? 0) else fst (IsKeyPressed k' st).
Proof.
  intros Hk. unfold IsKeyPressed. cbn [fst key_pressed subscript set_accesses].
  destruct (process_key_tracking k u st) as (-> & _).
  rewrite array_load_store by exact Hk.
  destruct (k' =? k); reflexivity.
Qed.

Lemma time_key_after_down_edge (k u : Z) (st : RecoveryUI) :
  u <> 0 ->
  time_key k (key_down_count (process_key no_mount k u st))
    (process_key no_mount k u st) =
    emit (KeyLongPress k)
      (set_key_long_press true (process_key no_mount k u st)).
Proof.
  intros Hu. unfold time_key.
  rewrite process_key_key_last_down.
  apply Z.eqb_neq in Hu. rewrite Hu, !Z.eqb_refl. reflexivity.
Qed.

(** X8 -- a key held: when the timer started by a down edge fires and
    nothing has happened since, it marks the press as long and calls
    [KeyLongPress] with the key. *)
Theorem time_key_fires_when_held (k u : Z) (st : RecoveryUI) :
  u <> 0 ->
  let st1 := process_key no_mount k u st in
  time_key k (key_down_count st1) st1 =
    emit (KeyLongPress k) (set_key_long_press true st1).
Proof.
  intros Hu st1. apply time_key_after_down_edge. exact Hu.
Qed.

(** X9 -- a key released before its timer fires: the timer does nothing,
    whatever count it carries. *)
Theorem time_key_after_release (k u count : Z) (st : RecoveryUI) :
  k <> -1 ->
  let st2 := process_key no_mount k 0 (process_key no_mount k u st) in
  time_key k count st2 = st2.
Proof.
  intros Hk st2. unfold time_key. subst st2.
  rewrite process_key_key_last_down. change (0 =? 0) with true. cbv iota.
  assert (H : (-1 =? k) = false) by (apply Z.eqb_neq; lia).
  rewrite H. reflexivity.
Qed.

Lemma wrap32_succ_neq (z : Z) : wrap32 (wrap32 z + 1) <> wrap32 z.
Proof.
  unfold wrap32.
  pose proof (Z.mod_pos_bound (z + 2 ^ 31) (2 ^ 32) ltac:(lia)) as Hz.
  set (a := (z + 2 ^ 31) mod 2 ^ 32) in *.
  replace (a - 2 ^ 31 + 1 + 2 ^ 31) with (a + 1) by lia.
  destruct (Z.eq_dec a (2 ^ 32 - 1)) as [-> | Hne].
  - vm_compute. discriminate.
  - rewrite Z.mod_small by lia. lia.
Qed.

(** X10 -- a key released and pressed again before the first timer fires:
    the stale timer, carrying the count of the first press, does nothing;
    the timer of the second press is the one that fires. *)
Theorem time_key_stale_after_repress (k u u' : Z) (st : RecoveryUI) :
  u <> 0 -> u' <> 0 ->
  let st1 := process_key no_mount k u st in
  let st3 := process_key no_mount k u' (process_key no_mount k 0 st1) in
  time_key k (key_down_count st1) st3 = st3 /\
  time_key k (key_down_count st3) st3 =
    emit (KeyLongPress k) (set_key_long_press true st3).
Proof.
  intros Hu Hu' st1 st3. split.
  - unfold time_key. subst st3 st1.
    rewrite process_key_key_last_down.
    apply Z.eqb_neq in Hu, Hu'. rewrite Hu'.
    destruct (process_key_tracking k u' (process_key no_mount k 0
               (process_key no_mount k u st))) as (_ & -> & _).
    rewrite Hu'.
    destruct (process_key_tracking k 0 (process_key no_mount k u st))
      as (_ & -> & _).
    change (0 =? 0) with true. cbv iota.
    destruct (process_key_tracking k u st) as (_ & -> & _).
    rewrite Hu.
    assert (H : (wrap32 (wrap32 (key_down_count st + 1) + 1) =?
                 wrap32 (key_down_count st + 1)) = false)
      by (apply Z.eqb_neq; apply wrap32_succ_neq).
    rewrite H, andb_false_r. reflexivity.
  - apply time_key_after_down_edge. exact Hu'.
Qed.

Lemma process_key_up_calls (k : Z) (st : RecoveryUI) :
  key_last_down st = k ->
  exists l,
    calls (process_key no_mount k 0 st) =
      calls st ++
        [NextCheckKeyIsLong (key_long_press st); CheckKey_called k] ++ l.
Proof.
  intros Hk. unfold process_key, process_key_locked.
  change (negb (0 =? 0)) with false. cbv iota.
  cbn [key_last_down set_key_pressed subscript set_accesses key_long_press].
  rewrite Hk, Z.eqb_refl.
  with_CheckKey CheckKey_calls.
  match goal with H : calls st_policy = _ |- _ => rename H into Hc end.
  cbn [calls emit set_calls set_key_last_down set_key_pressed] in Hc.
  rewrite <- !app_assoc in Hc. cbn [app] in Hc.
  assert (Hemit : forall c s, calls (emit c s) = calls s ++ [c])
    by reflexivity.
  destruct action; cbv iota.
  - exists []. exact Hc.
  - exists [ShowText (negb (text_visible st_policy))].
    rewrite Hemit, Hc, <- app_assoc. reflexivity.
  - exists [vold_unmount_all; android_reboot].
    rewrite !Hemit, Hc, <- !app_assoc. reflexivity.
  - unfold EnqueueKey. split_ifs.
    + exists [DialogDismiss]. rewrite Hc, <- app_assoc. reflexivity.
    + exists []. exact Hc.
    + exists [pthread_cond_signal]. rewrite Hc, <- app_assoc. reflexivity.
    + exists []. exact Hc.
  - destruct no_mount.
    + exists []. exact Hc.
    + exists [ensure_path_mounted "/system"; Print "Mounted /system."].
      rewrite !Hemit, Hc, <- !app_assoc. reflexivity.
Qed.

(** X11 -- the policy is told whether the press was long: released after
    its timer fired, a key is registered with [NextCheckKeyIsLong(true)];
    released before, with [NextCheckKeyIsLong(false)].  In both cases that
    call comes right before [CheckKey]. *)
Theorem process_key_reports_long_press (k u : Z) (st : RecoveryUI) :
  u <> 0 ->
  let st1 := process_key no_mount k u st in
  (exists l,
     calls (process_key no_mount k 0 (time_key k (key_down_count st1) st1)) =
       calls st1 ++
         [KeyLongPress k; NextCheckKeyIsLong true; CheckKey_called k] ++ l) /\
  (exists l,
     calls (process_key no_mount k 0 st1) =
       calls st1 ++ [NextCheckKeyIsLong false; CheckKey_called k] ++ l).
Proof.
  intros Hu st1. subst st1.
  pose proof (process_key_key_last_down no_mount k u st) as Hlast.
  destruct (process_key_tracking k u st) as (_ & _ & Hlong).
  pose proof Hu as Hu'. apply Z.eqb_neq in Hu'. rewrite Hu' in Hlast, Hlong.
  split.
  - rewrite time_key_after_down_edge by exact Hu.
    destruct (process_key_up_calls k
                (emit (KeyLongPress k)
                   (set_key_long_press true (process_key no_mount k u st))))
      as (l & Hl); [exact Hlast |].
    exists l. rewrite Hl. cbn [calls emit set_calls set_key_long_press
                                 key_long_press].
    rewrite <- !app_assoc. reflexivity.
  - destruct (process_key_up_calls k (process_key no_mount k u st) Hlast)
      as (l & Hl).
    exists l. rewrite Hl, Hlong. reflexivity.
Qed.

End KeyFacts.

Lemma IsKeyPressed_after_process_key_witness :
  in_bounds (key_pressed fresh_ui) KEY_POWER = true /\
  fst (IsKeyPressed KEY_POWER (process_key false KEY_POWER 1 fresh_ui)) =
    true /\
  fst (IsKeyPressed KEY_BACK (process_key false KEY_POWER 1 fresh_ui)) =
    false.
Proof.
  assert (H : in_bounds (key_pressed fresh_ui) KEY_POWER = true)
    by reflexivity.
  split; [exact H |]. split.
  - exact (IsKeyPressed_after_process_key false KEY_POWER 1 KEY_POWER
             fresh_ui H).
  - exact (IsKeyPressed_after_process_key false KEY_POWER 1 KEY_BACK
             fresh_ui H).
Defined.

Lemma time_key_fires_when_held_witness :
  1 <> 0 /\
  calls (time_key KEY_BACK 1 (process_key false KEY_BACK 1 fresh_ui)) =
    [pthread_create_time_key KEY_BACK 1; KeyLongPress KEY_BACK].
Proof.
  assert (H : 1 <> 0) by discriminate.
  split; [exact H |].
  exact (f_equal calls
           (time_key_fires_when_held false KEY_BACK 1 fresh_ui H)).
Defined.

Lemma time_key_after_release_witness :
  KEY_BACK <> -1 /\
  time_key KEY_BACK 1
    (process_key false KEY_BACK 0 (process_key false KEY_BACK 1 fresh_ui)) =
    process_key false KEY_BACK 0 (process_key false KEY_BACK 1 fresh_ui).
Proof.
  assert (H : KEY_BACK <> -1) by (vm_compute; discriminate).
  split; [exact H |].
  exact (time_key_after_release false KEY_BACK 1 1 fresh_ui H).
Defined.

Lemma time_key_stale_after_repress_witness :
  (1 <> 0 /\ 1 <> 0) /\
  time_key KEY_BACK 1
    (process_key false KEY_BACK 1
       (process_key false KEY_BACK 0
          (process_key false KEY_BACK 1 fresh_ui))) =
    process_key false KEY_BACK 1
      (process_key false KEY_BACK 0 (process_key false KEY_BACK 1 fresh_ui)).
Proof.
  assert (H : 1 <> 0) by discriminate.
  split; [split; exact H |].
  exact (proj1 (time_key_stale_after_repress false KEY_BACK 1 1 fresh_ui
                  H H)).
Defined.

Lemma process_key_reports_long_press_witness :
  1 <> 0 /\
  exists l,
    calls (process_key false KEY_BACK 0
             (process_key false KEY_BACK 1 fresh_ui)) =
      calls (process_key false KEY_BACK 1 fresh_ui) ++
        [NextCheckKeyIsLong false; CheckKey_called KEY_BACK] ++ l.
Proof.
  assert (H : 1 <> 0) by discriminate.
  split; [exact H |].
  exact (proj2 (process_key_reports_long_press false KEY_BACK 1 fresh_ui H)).
Defined.

(** ** The default policy over a run of keys *)

Lemma CheckKey_policy (key : Z) (st : RecoveryUI) :
  fst (CheckKey key st) = fst (policy_step key (policy_of st)) /\
  policy_of (snd (CheckKey key st)) = snd (policy_step key (policy_of st)).
Proof.
  unfold CheckKey, IsKeyPressed, policy_step, policy_of. cbn.
  split_ifs; split; reflexivity.
Qed.

Lemma CheckKey_seq_policy (keys : list Z) :
  forall st,
  fst (CheckKey_seq keys st) = fst (policy_run keys (policy_of st)) /\
  policy_of (snd (CheckKey_seq keys st)) =
    snd (policy_run keys (policy_of st)).
Proof.
  induction keys as [| key keys IH]; intros st; [split; reflexivity |].
  cbn [CheckKey_seq policy_run].
  destruct (CheckKey_policy key st) as [Ha Hp].
  destruct (CheckKey key st) as [action st1].
  destruct (policy_step key (policy_of st)) as [action' p1].
  cbn [fst snd] in Ha, Hp. subst action' p1.
  destruct (IH st1) as [Has Hps].
  destruct (CheckKey_seq keys st1) as [actions st2].
  destruct (policy_run keys (policy_of st1)) as [actions' p2].
  cbn [fst snd] in *. subst. split; reflexivity.
Qed.

Lemma policy_run_app (l1 l2 : list Z) :
  forall p,
  policy_run (l1 ++ l2) p =
    (fst (policy_run l1 p) ++ fst (policy_run l2 (snd (policy_run l1 p))),
     snd (policy_run l2 (snd (policy_run l1 p)))).
Proof.
  induction l1 as [| k l1 IH]; intros p.
  - cbn [app policy_run fst snd]. destruct (policy_run l2 p); reflexivity.
  - cbn [app policy_run]. destruct (policy_step k p) as [a p1].
    rewrite IH. destruct (policy_run l1 p1) as [as1 p2]. reflexivity.
Qed.

Lemma policy_step_power (p : policy) :
  policy_step KEY_POWER p =
    if 7 <=? wrap32 (power_keys p + 1)
    then (REBOOT,
          mkPolicy (power_held p) (wrap32 (power_keys p + 1))
            (alternate_keys p) (previous_key p))
    else (ENQUEUE,
          mkPolicy (power_held p) (wrap32 (power_keys p + 1)) 0 KEY_POWER).
Proof.
  unfold policy_step. change (KEY_POWER =? KEY_VOLUMEUP) with false.
  change (KEY_POWER =? KEY_VOLUMEDOWN) with false.
  change (KEY_POWER =? KEY_POWER) with true.
  rewrite andb_false_r. cbn [andb orb].
  destruct (7 <=? wrap32 (power_keys p + 1)); reflexivity.
Qed.

(** Up to six power keys are all queued, and counted. *)
Lemma policy_power_run (n : nat) :
  forall p,
  0 <= power_keys p -> power_keys p + Z.of_nat n <= 6 ->
  fst (policy_run (repeat KEY_POWER n) p) = repeat ENQUEUE n /\
  power_keys (snd (policy_run (repeat KEY_POWER n) p)) =
    power_keys p + Z.of_nat n /\
  power_held (snd (policy_run (repeat KEY_POWER n) p)) = power_held p.
Proof.
  induction n as [| n IH]; intros p H0 H6.
  - cbn [repeat policy_run fst snd]. repeat split. lia.
  - cbn [repeat policy_run]. rewrite policy_step_power.
    rewrite wrap32_in_range by (unfold INT_MIN, INT_MAX; lia).
    assert (Hlt : (7 <=? power_keys p + 1) = false) by (apply Z.leb_gt; lia).
    rewrite Hlt.
    destruct (IH (mkPolicy (power_held p) (power_keys p + 1) 0 KEY_POWER))
      as (Ha & Hc & Hh); cbn [power_keys]; try lia.
    destruct (policy_run (repeat KEY_POWER n) _) as [actions p'].
    cbn [fst snd power_keys power_held] in *. subst actions.
    repeat split; [lia | exact Hh].
Qed.

(** A key that is not power and does not toggle is never answered with
    [REBOOT], and sets the count of power keys to zero. *)
Lemma policy_step_breaks_run (key : Z) (p : policy) :
  key <> KEY_POWER -> power_held p && (key =? KEY_VOLUMEUP) = false ->
  fst (policy_step key p) <> REBOOT /\
  power_keys (snd (policy_step key p)) = 0 /\
  power_held (snd (policy_step key p)) = power_held p.
Proof.
  intros Hkey Htoggle. unfold policy_step. rewrite Htoggle.
  apply Z.eqb_neq in Hkey. rewrite Hkey. cbn [andb].
  split_ifs; repeat split; discriminate.
Qed.

(** X12 -- seven power keys in a row, counted from zero: the first six are
    queued and the seventh is answered with [REBOOT], whatever else the
    object holds. *)
Theorem CheckKey_seven_powers (st : RecoveryUI) :
  consecutive_power_keys st = 0 ->
  fst (CheckKey_seq (repeat KEY_POWER 7) st) = repeat ENQUEUE 6 ++ [REBOOT].
Proof.
  intros Hc. destruct (CheckKey_seq_policy (repeat KEY_POWER 7) st) as [-> _].
  change (repeat KEY_POWER 7) with (repeat KEY_POWER 6 ++ [KEY_POWER]).
  rewrite policy_run_app. cbn [fst].
  destruct (policy_power_run 6 (policy_of st)) as (-> & Hcount & _);
    [cbn [policy_of power_keys]; lia .. |].
  f_equal. cbn [policy_run]. rewrite policy_step_power, Hcount.
  cbn [policy_of power_keys]. rewrite Hc. reflexivity.
Qed.

Lemma CheckKey_seven_powers_witness :
  consecutive_power_keys fresh_ui = 0 /\
  fst (CheckKey_seq (repeat KEY_POWER 7) fresh_ui) =
    repeat ENQUEUE 6 ++ [REBOOT].
Proof.
  assert (H : consecutive_power_keys fresh_ui = 0) by reflexivity.
  split; [exact H | exact (CheckKey_seven_powers fresh_ui H)].
Defined.

(** X13 -- a key that is not power and does not toggle the display breaks
    the run: six powers, such a key, and six more powers never give
    [REBOOT]. *)
Theorem CheckKey_power_run_broken (key : Z) (st : RecoveryUI) :
  consecutive_power_keys st = 0 ->
  key <> KEY_POWER ->
  key <> KEY_VOLUMEUP \/ fst (IsKeyPressed KEY_POWER st) = false ->
  ~ In REBOOT
      (fst (CheckKey_seq (repeat KEY_POWER 6 ++ key :: repeat KEY_POWER 6) st)).
Proof.
  intros Hc Hkey Htoggle.
  destruct (CheckKey_seq_policy
              (repeat KEY_POWER 6 ++ key :: repeat KEY_POWER 6) st) as [-> _].
  rewrite policy_run_app. cbn [fst].
  destruct (policy_power_run 6 (policy_of st)) as (-> & _ & Hheld);
    [cbn [policy_of power_keys]; lia .. |].
  set (p6 := snd (policy_run (repeat KEY_POWER 6) (policy_of st))) in *.
  assert (Hnotoggle : power_held p6 && (key =? KEY_VOLUMEUP) = false).
  { rewrite Hheld. destruct Htoggle as [Hne | Hnot].
    - apply Z.eqb_neq in Hne. rewrite Hne. apply andb_false_r.
    - unfold IsKeyPressed in Hnot. cbn [fst] in Hnot.
      cbn [policy_of power_held]. 
      change (key_pressed (subscript (at_key_pressed KEY_POWER) st))
        with (key_pressed st) in Hnot.
      rewrite Hnot. reflexivity. }
  destruct (policy_step_breaks_run key p6 Hkey Hnotoggle)
    as (Hact & Hzero & _).
  cbn [policy_run]. destruct (policy_step key p6) as [action p7].
  cbn [fst snd] in Hact, Hzero.
  destruct (policy_power_run 6 p7) as (Hactions & _); [lia .. |].
  destruct (policy_run (repeat KEY_POWER 6) p7) as [actions p13].
  cbn [fst] in *. subst actions.
  rewrite in_app_iff. cbn [In repeat].
  intros [H | [H | H]]; [| congruence |];
    repeat (destruct H as [H | H]; [discriminate |]); exact H.
Qed.

Lemma CheckKey_power_run_broken_witness :
  (consecutive_power_keys fresh_ui = 0 /\ KEY_VOLUMEDOWN <> KEY_POWER /\
   (KEY_VOLUMEDOWN <> KEY_VOLUMEUP \/
    fst (IsKeyPressed KEY_POWER fresh_ui) = false)) /\
  ~ In REBOOT
      (fst (CheckKey_seq
              (repeat KEY_POWER 6 ++ KEY_VOLUMEDOWN :: repeat KEY_POWER 6)
              fresh_ui)).
Proof.
  assert (H1 : consecutive_power_keys fresh_ui = 0) by reflexivity.
  assert (H2 : KEY_VOLUMEDOWN <> KEY_POWER) by (vm_compute; discriminate).
  assert (H3 : KEY_VOLUMEDOWN <> KEY_VOLUMEUP \/
               fst (IsKeyPressed KEY_POWER fresh_ui) = false)
    by (right; reflexivity).
  split; [repeat split; assumption |].
  exact (CheckKey_power_run_broken KEY_VOLUMEDOWN fresh_ui H1 H2 H3).
Defined.

(** X14 -- volume-up and volume-down in turn, seven keys starting with
    volume-up, with power not held and no volume-up registered just before:
    the first six are queued, the seventh is answered with [MOUNT_SYSTEM],
    and the count of alternations is back at zero. *)
Theorem CheckKey_seven_alternations (st : RecoveryUI) :
  fst (IsKeyPressed KEY_POWER st) = false ->
  consecutive_alternate_keys st = 0 ->
  last_key st = -1 \/ last_key st = KEY_VOLUMEDOWN ->
  fst (CheckKey_seq VOLUME_UP_DOWN_7 st) = repeat ENQUEUE 6 ++ [MOUNT_SYSTEM] /\
  consecutive_alternate_keys (snd (CheckKey_seq VOLUME_UP_DOWN_7 st)) = 0.
Proof.
  intros Hheld Hcount Hlast.
  destruct (CheckKey_seq_policy VOLUME_UP_DOWN_7 st) as [-> Hp].
  apply (f_equal alternate_keys) in Hp.
  change (alternate_keys (policy_of ?s)) with (consecutive_alternate_keys s)
    in Hp.
  rewrite Hp. unfold policy_of. unfold IsKeyPressed in Hheld.
  cbn [fst] in Hheld.
  change (key_pressed (subscript (at_key_pressed KEY_POWER) st))
    with (key_pressed st) in Hheld.
  rewrite Hheld, Hcount.
  destruct Hlast as [-> | ->]; split; vm_compute; reflexivity.
Qed.

Lemma CheckKey_seven_alternations_witness :
  (fst (IsKeyPressed KEY_POWER fresh_ui) = false /\
   consecutive_alternate_keys fresh_ui = 0 /\
   (last_key fresh_ui = -1 \/ last_key fresh_ui = KEY_VOLUMEDOWN)) /\
  fst (CheckKey_seq VOLUME_UP_DOWN_7 fresh_ui) =
    repeat ENQUEUE 6 ++ [MOUNT_SYSTEM].
Proof.
  assert (H1 : fst (IsKeyPressed KEY_POWER fresh_ui) = false) by reflexivity.
  assert (H2 : consecutive_alternate_keys fresh_ui = 0) by reflexivity.
  assert (H3 : last_key fresh_ui = -1 \/ last_key fresh_ui = KEY_VOLUMEDOWN)
    by (left; reflexivity).
  split; [repeat split; assumption |].
  exact (proj1 (CheckKey_seven_alternations fresh_ui H1 H2 H3)).
Defined.

(** ** The key queue as a FIFO *)

Lemma queued_store_at_end (a : list Z) (n v : Z) :
  0 <= n < Z.of_nat (length a) ->
  take (Z.to_nat (n + 1)) (array_store a n v) = take (Z.to_nat n) a ++ [v].
Proof.
  intros Hn. unfold array_store, in_bounds.
  assert (H0 : (0 <=? n) = true) by (apply Z.leb_le; lia).
  assert (H1 : (n <? Z.of_nat (length a)) = true) by (apply Z.ltb_lt; lia).
  rewrite H0, H1. cbn [andb].
  replace (Z.to_nat (n + 1)) with (S (Z.to_nat n)) by lia.
  rewrite (take_S_r _ _ v) by (apply list_lookup_insert_eq; lia).
  rewrite take_insert_ge by lia. reflexivity.
Qed.

Lemma queued_memcpy_down (a : list Z) (n : Z) :
  1 <= n <= Z.of_nat (length a) ->
  take (Z.to_nat n) a =
    array_load a 0 :: take (Z.to_nat (n - 1)) (memcpy_down a (n - 1)).
Proof.
  intros Hn. apply list_eq. intros i.
  destruct i as [| i].
  - cbn [lookup list_lookup]. rewrite lookup_take_lt by lia.
    unfold array_load, in_bounds.
    assert (H1 : (0 <? Z.of_nat (length a)) = true) by (apply Z.ltb_lt; lia).
    rewrite H1. cbn [andb Z.leb Z.compare]. change (Z.to_nat 0) with 0%nat.
    destruct (a !! 0%nat) eqn:Ha; [reflexivity |].
    apply lookup_ge_None in Ha. lia.
  - change ((array_load a 0 :: ?l) !! S i) with (l !! i).
    destruct (decide (S i < Z.to_nat n)%nat) as [Hlt | Hge].
    + rewrite !lookup_take_lt by lia.
      unfold memcpy_down. rewrite list_lookup_imap.
      destruct (a !! i) eqn:Hai; [| apply lookup_ge_None in Hai; lia].
      cbn [fmap option_fmap option_map].
      assert (Hi : (Z.of_nat i <? n - 1) = true) by (apply Z.ltb_lt; lia).
      rewrite Hi. unfold array_load, in_bounds.
      assert (H0 : (0 <=? Z.of_nat i + 1) = true) by (apply Z.leb_le; lia).
      assert (H1 : (Z.of_nat i + 1 <? Z.of_nat (length a)) = true)
        by (apply Z.ltb_lt; lia).
      rewrite H0, H1. cbn [andb].
      replace (Z.to_nat (Z.of_nat i + 1)) with (S i) by lia.
      destruct (a !! S i) eqn:Hsi; [reflexivity |].
      apply lookup_ge_None in Hsi. lia.
    + rewrite !lookup_take_ge by lia. reflexivity.
Qed.

Lemma length_memcpy_down (a : list Z) (n : Z) :
  length (memcpy_down a n) = length a.
Proof. unfold memcpy_down. apply length_imap. Qed.

Lemma length_array_store (a : list Z) (i v : Z) :
  length (array_store a i v) = length a.
Proof.
  unfold array_store. destruct (in_bounds a i); [| reflexivity].
  apply length_insert.
Qed.

(** With no dialog showing and room in the queue, [EnqueueKey] puts the key
    behind the keys already waiting. *)
Lemma EnqueueKey_queued_room (k : Z) (st : RecoveryUI) :
  queue_wf st -> dialog_showing st = false -> key_queue_len st < queue_max ->
  queued (EnqueueKey k st) = queued st ++ [k] /\ queue_wf (EnqueueKey k st).
Proof.
  intros [Hsize Hlen] Hdialog Hroom. unfold EnqueueKey. rewrite Hdialog.
  assert (Hlt : (key_queue_len st <? queue_max) = true)
    by (apply Z.ltb_lt; exact Hroom).
  rewrite Hlt. unfold queued, queue_wf. cbn.
  unfold queue_max in *.
  rewrite wrap32_in_range by (unfold INT_MIN, INT_MAX; lia).
  rewrite length_array_store.
  split; [apply queued_store_at_end; lia | lia].
Qed.

(** X16 -- [CancelWaitKey] with room in the queue puts -2 behind the keys
    already waiting: the waiter is handed those first. *)
Theorem CancelWaitKey_appends (st : RecoveryUI) :
  queue_wf st -> key_queue_len st < queue_max ->
  queued (CancelWaitKey st) = queued st ++ [-2] /\
  queue_wf (CancelWaitKey st).
Proof.
  intros [Hsize Hlen] Hroom. unfold CancelWaitKey, queued, queue_wf. cbn.
  unfold queue_max in *.
  rewrite wrap32_in_range by (unfold INT_MIN, INT_MAX; lia).
  rewrite length_array_store.
  split; [apply queued_store_at_end; lia | lia].
Qed.

Lemma WaitKey_take_oldest (st : RecoveryUI) :
  queue_wf st -> 0 < key_queue_len st ->
  exists st',
    WaitKey_take st = returns (array_load (key_queue st) 0) st' /\
    queued st = array_load (key_queue st) 0 :: queued st' /\
    queue_wf st' /\ calls st' = calls st.
Proof.
  intros [Hsize Hlen] Hpos. unfold WaitKey_take.
  assert (Hlt : (0 <? key_queue_len st) = true) by (apply Z.ltb_lt; lia).
  rewrite Hlt. eexists. split; [reflexivity |].
  unfold queued, queue_wf, queue_max in *.
  cbn [key_queue key_queue_len subscript set_accesses set_key_queue_len].
  rewrite wrap32_in_range by (unfold INT_MIN, INT_MAX; lia).
  destruct (0 <? key_queue_len st - 1);
    cbn [key_queue key_queue_len subscript set_accesses set_key_queue
         set_key_queue_len calls];
    rewrite length_memcpy_down;
    (split; [apply queued_memcpy_down; lia |]); (split; [lia | reflexivity]).
Qed.

Section QueueFacts.

Variable no_mount : bool.
Variables fb_w fb_h : Z.
Variable scale : Z -> Z -> Z -> Z.

Lemma WaitKey_not_empty (wakes : list wake) (cable : nat -> option string)
    (st : RecoveryUI) :
  key_queue_len st <> 0 ->
  WaitKey no_mount fb_w fb_h scale wakes cable st = WaitKey_take st.
Proof.
  intros Hlen. unfold WaitKey, UI_WAIT_KEY_TIMEOUT_SEC.
  apply Z.eqb_neq in Hlen.
  destruct wakes; cbn [WaitKey_loop]; rewrite Hlen; reflexivity.
Qed.

(** X17 -- with keys waiting, [WaitKey] returns the oldest one at once: it
    does not sleep, does not look at the volumes flag or the cable, makes
    no call, and leaves the other keys waiting in their order. *)
Theorem WaitKey_returns_oldest (wakes : list wake)
    (cable : nat -> option string) (st : RecoveryUI) :
  queue_wf st -> 0 < key_queue_len st ->
  exists key st',
    WaitKey no_mount fb_w fb_h scale wakes cable st = returns key st' /\
    queued st = key :: queued st' /\
    queue_wf st' /\ calls st' = calls st /\ v_changed st' = v_changed st.
Proof.
  intros Hwf Hpos. rewrite WaitKey_not_empty by lia.
  destruct (WaitKey_take_oldest st Hwf Hpos) as (st' & Hret & Hq & Hwf' & Hc).
  exists (array_load (key_queue st) 0), st'.
  repeat (split; [assumption |]).
  unfold WaitKey_take in Hret.
  assert (Hlt : (0 <? key_queue_len st) = true) by (apply Z.ltb_lt; lia).
  rewrite Hlt in Hret. inversion Hret; subst st'.
  destruct (0 <? _); reflexivity.
Qed.

(** X18 -- calls of [WaitKey] hand out the waiting keys oldest first:
    as many calls as there are keys return exactly the queue. *)
Theorem WaitKey_drains_in_order (wakes : list wake)
    (cable : nat -> option string) (n : nat) :
  forall st,
  queue_wf st -> Z.of_nat n = key_queue_len st ->
  drain (WaitKey no_mount fb_w fb_h scale wakes cable) n st = queued st.
Proof.
  induction n as [| n IH]; intros st Hwf Hn.
  - unfold queued. rewrite <- Hn. reflexivity.
  - cbn [drain]. rewrite WaitKey_not_empty by lia.
    destruct (WaitKey_take_oldest st Hwf) as (st' & Hret & Hq & Hwf' & _);
      [lia |].
    rewrite Hret, Hq. f_equal. apply IH; [exact Hwf' |].
    apply (f_equal (@length Z)) in Hq. unfold queued in Hq.
    destruct Hwf as [Hsize Hlen]. destruct Hwf' as [Hsize' Hlen'].
    cbn [length] in Hq. rewrite !length_take in Hq. lia.
Qed.

End QueueFacts.

(** X15 -- a run of keys is queued in its order, and what does not fit is
    dropped: with no dialog showing, the queue after the run is the old
    queue followed by the keys, cut off at the capacity. *)
Theorem enqueue_all_fifo (keys : list Z) :
  forall st,
  queue_wf st -> dialog_showing st = false ->
  queued (enqueue_all keys st) =
    take (Z.to_nat queue_max) (queued st ++ keys) /\
  queue_wf (enqueue_all keys st).
Proof.
  induction keys as [| k keys IH]; intros st Hwf Hdialog.
  - unfold enqueue_all. cbn [fold_left]. rewrite app_nil_r.
    split; [| exact Hwf].
    unfold queued. rewrite take_take. f_equal. destruct Hwf. lia.
  - change (enqueue_all (k :: keys) st)
      with (enqueue_all keys (EnqueueKey k st)).
    assert (Hd : dialog_showing (EnqueueKey k st) = false).
    { unfold EnqueueKey. rewrite Hdialog. split_ifs; exact Hdialog. }
    destruct (Z.lt_ge_cases (key_queue_len st) queue_max) as [Hroom | Hfull].
    + destruct (EnqueueKey_queued_room k st Hwf Hdialog Hroom) as [Hq Hwf'].
      destruct (IH _ Hwf' Hd) as [-> Hwf'']. split; [| exact Hwf''].
      rewrite Hq, <- app_assoc. reflexivity.
    + assert (Hsame : EnqueueKey k st = st).
      { unfold EnqueueKey. rewrite Hdialog.
        assert (Hge : (key_queue_len st <? queue_max) = false)
          by (apply Z.ltb_ge; exact Hfull).
        rewrite Hge. reflexivity. }
      rewrite Hsame. destruct (IH _ Hwf Hdialog) as [-> Hwf'].
      split; [| exact Hwf'].
      assert (Hlenq : length (queued st) = Z.to_nat queue_max).
      { unfold queued. destruct Hwf. rewrite length_take. lia. }
      rewrite !take_app_le by lia. reflexivity.
Qed.

Lemma queue_wf_fresh_ui : queue_wf fresh_ui.
Proof. split; [reflexivity | vm_compute; split; discriminate]. Qed.

Lemma CancelWaitKey_appends_witness :
  (queue_wf fresh_ui /\ key_queue_len fresh_ui < queue_max) /\
  queued (CancelWaitKey fresh_ui) = queued fresh_ui ++ [-2].
Proof.
  assert (H1 : queue_wf fresh_ui) by exact queue_wf_fresh_ui.
  assert (H2 : key_queue_len fresh_ui < queue_max) by reflexivity.
  split; [split; assumption |].
  exact (proj1 (CancelWaitKey_appends fresh_ui H1 H2)).
Defined.

Lemma enqueue_all_fifo_witness :
  (queue_wf fresh_ui /\ dialog_showing fresh_ui = false) /\
  queued (enqueue_all [KEY_UP; KEY_DOWN; KEY_BACK] fresh_ui) =
    take (Z.to_nat queue_max) (queued fresh_ui ++ [KEY_UP; KEY_DOWN; KEY_BACK]).
Proof.
  assert (H1 : queue_wf fresh_ui) by exact queue_wf_fresh_ui.
  assert (H2 : dialog_showing fresh_ui = false) by reflexivity.
  split; [split; assumption |].
  exact (proj1 (enqueue_all_fifo [KEY_UP; KEY_DOWN; KEY_BACK] fresh_ui H1 H2)).
Defined.

Lemma WaitKey_returns_oldest_witness :
  (queue_wf (enqueue_all [KEY_UP; KEY_DOWN] fresh_ui) /\
   0 < key_queue_len (enqueue_all [KEY_UP; KEY_DOWN] fresh_ui)) /\
  exists key st',
    WaitKey false 1080 1920 exact_scale [] (unplugged_after 0)
      (enqueue_all [KEY_UP; KEY_DOWN] fresh_ui) = returns key st' /\
    queued (enqueue_all [KEY_UP; KEY_DOWN] fresh_ui) = key :: queued st'.
Proof.
  assert (H1 : queue_wf (enqueue_all [KEY_UP; KEY_DOWN] fresh_ui))
    by (split; [reflexivity | vm_compute; split; discriminate]).
  assert (H2 : 0 < key_queue_len (enqueue_all [KEY_UP; KEY_DOWN] fresh_ui))
    by reflexivity.
  split; [split; assumption |].
  destruct (WaitKey_returns_oldest false 1080 1920 exact_scale []
              (unplugged_after 0) _ H1 H2) as (key & st' & Hret & Hq & _).
  exists key, st'. split; assumption.
Defined.

Lemma WaitKey_drains_in_order_witness :
  (queue_wf (enqueue_all [KEY_UP; KEY_DOWN] fresh_ui) /\
   Z.of_nat 2 = key_queue_len (enqueue_all [KEY_UP; KEY_DOWN] fresh_ui)) /\
  drain (WaitKey false 1080 1920 exact_scale [] (unplugged_after 0)) 2
    (enqueue_all [KEY_UP; KEY_DOWN] fresh_ui) = [KEY_UP; KEY_DOWN].
Proof.
  assert (H1 : queue_wf (enqueue_all [KEY_UP; KEY_DOWN] fresh_ui))
    by (split; [reflexivity | vm_compute; split; discriminate]).
  assert (H2 : Z.of_nat 2 =
               key_queue_len (enqueue_all [KEY_UP; KEY_DOWN] fresh_ui))
    by reflexivity.
  split; [split; assumption |].
  exact (WaitKey_drains_in_order false 1080 1920 exact_scale []
           (unplugged_after 0) 2 _ H1 H2).
Defined.

(** ** The volumes flag and the waiter *)

Lemma EnqueueKey_v_changed (k : Z) (st : RecoveryUI) :
  v_changed (EnqueueKey k st) = v_changed st.
Proof. unfold EnqueueKey. split_ifs; reflexivity. Qed.

Lemma CheckKey_v_changed (k : Z) (st : RecoveryUI) :
  v_changed (snd (CheckKey k st)) = v_changed st.
Proof.
  unfold CheckKey, IsKeyPressed. cbn [fst snd]. split_ifs; reflexivity.
Qed.

Section VolumesFacts.

Variable no_mount : bool.
Variables fb_w fb_h : Z.
Variable scale : Z -> Z -> Z -> Z.

Lemma process_key_v_changed (k u : Z) (st : RecoveryUI) :
  v_changed (process_key no_mount k u st) = v_changed st.
Proof.
  unfold process_key, process_key_locked.
  destruct (u =? 0) eqn:Hu; cbn [negb]; [| reflexivity].
  cbn [key_last_down set_key_pressed subscript set_accesses key_long_press].
  destruct (key_last_down st =? k) eqn:Hk; [| reflexivity].
  with_CheckKey CheckKey_v_changed.
  destruct action; rewrite ?EnqueueKey_v_changed;
    try destruct no_mount; cbn; assumption.
Qed.

Lemma process_swipe_v_changed (fd : input_fd) (ev : input_event)
    (st : RecoveryUI) :
  v_changed (process_swipe fb_w fb_h scale fd ev st) = v_changed st.
Proof.
  assert (Hq : v_changed (query_touch_maxima fd st) = v_changed st).
  { unfold query_touch_maxima. split_ifs; reflexivity. }
  unfold process_swipe.
  split_ifs; rewrite ?EnqueueKey_v_changed; cbn; exact Hq.
Qed.

Lemma v_changed_set_rel_sum (v : Z) (st : RecoveryUI) :
  v_changed (set_rel_sum v st) = v_changed st.
Proof. reflexivity. Qed.

Lemma input_callback_v_changed (fd : input_fd) (got : option input_event)
    (st : RecoveryUI) :
  v_changed (snd (input_callback no_mount fb_w fb_h scale fd got st)) =
    v_changed st.
Proof.
  destruct got as [ev |]; [| reflexivity].
  unfold input_callback.
  pose proof (process_swipe_v_changed fd ev st) as Hsw.
  set (st1 := process_swipe fb_w fb_h scale fd ev st) in *. clearbody st1.
  destruct (ev_type ev =? EV_SYN); [exact Hsw |].
  unfold snd.
  assert (Hst2 : forall s, v_changed s = v_changed st ->
            v_changed
              (if (ev_type ev =? EV_KEY) && (ev_code ev <=? KEY_MAX)
               then process_key no_mount (ev_code ev) (ev_value ev) s
               else s) = v_changed st).
  { intros s Hs. destruct (_ && _); [| exact Hs].
    rewrite process_key_v_changed. exact Hs. }
  apply Hst2.
  destruct (ev_type ev =? EV_REL).
  - destruct (ev_code ev =? REL_Y); [| exact Hsw].
    destruct (3 <? _).
    { rewrite v_changed_set_rel_sum, !process_key_v_changed. exact Hsw. }
    destruct (_ <? -3).
    { rewrite v_changed_set_rel_sum, !process_key_v_changed. exact Hsw. }
    exact Hsw.
  - exact Hsw.
Qed.

(** Nothing another thread does takes the flag back once it is set. *)
Lemma run_other_keeps_flag (o : other_thread) (st : RecoveryUI) :
  v_changed st = 1 ->
  v_changed (run_other no_mount fb_w fb_h scale o st) = 1.
Proof.
  intros H. destruct o; cbn [run_other].
  - rewrite input_callback_v_changed. exact H.
  - unfold time_key. split_ifs; exact H.
  - destruct (message_socket_client_event_frame revents nread buf st)
      as (_ & l & -> & _). exact H.
  - exact H.
  - reflexivity.
Qed.

Lemma run_others_notified (os : list other_thread) :
  forall st,
  v_changed st = 1 \/ In notify_volumes_changed os ->
  v_changed
    (fold_left (fun s o => run_other no_mount fb_w fb_h scale o s) os st) = 1.
Proof.
  induction os as [| o os IH]; intros st H; cbn [fold_left].
  - destruct H as [H | []]. exact H.
  - apply IH. destruct H as [H | [-> | H]].
    + left. apply run_other_keeps_flag. exact H.
    + left. reflexivity.
    + right. exact H.
Qed.

(** X19 -- a volume change notified while the waiter sleeps on an empty
    queue makes [WaitKey] return [kRefresh] at that wake-up, whatever else
    the other threads did meanwhile and whatever the wait returned; the
    flag is cleared, and keys that arrived in the same sleep stay in the
    queue. *)
Theorem WaitKey_refresh_on_notify (w : wake) (wakes : list wake)
    (cable : nat -> option string) (st : RecoveryUI) :
  key_queue_len st = 0 ->
  In notify_volumes_changed (wake_others w) ->
  let st1 :=
    fold_left (fun s o => run_other no_mount fb_w fb_h scale o s)
      (wake_others w) st in
  WaitKey no_mount fb_w fb_h scale (w :: wakes) cable st =
    returns_kRefresh (set_v_changed 0 st1).
Proof.
  intros Hlen Hin st1. unfold WaitKey. cbn [WaitKey_loop]. rewrite Hlen.
  change (0 =? 0) with true. cbv iota. fold st1.
  assert (Hflag : v_changed st1 = 1)
    by (apply run_others_notified; right; exact Hin).
  unfold VolumesChanged. rewrite Hflag. reflexivity.
Qed.

(** X20 -- with the queue empty, no volume change and the cable unplugged
    when it is looked at, [WaitKey] gives up after exactly 120 slices: it
    is still waiting after any smaller number, and the 120th time-out
    makes it return -1, after a single look at the cable. *)
Theorem WaitKey_gives_up_after_120 (k : nat) (wakes : list wake)
    (cable : nat -> option string) (st : RecoveryUI) :
  key_queue_len st = 0 -> v_changed st = 0 ->
  fst (usb_connected (cable 120%nat) st) = false ->
  (k < 120)%nat ->
  WaitKey no_mount fb_w fb_h scale (repeat timed_out k) cable st =
    still_waiting st /\
  WaitKey no_mount fb_w fb_h scale (repeat timed_out 120 ++ wakes) cable st =
    returns (-1) (emit open_android_usb_state st).
Proof.
  intros Hlen Hvol Hcable Hk. split.
  - unfold WaitKey, UI_WAIT_KEY_TIMEOUT_SEC.
    rewrite <- (app_nil_r (repeat timed_out k)).
    rewrite WaitKey_loop_counts_down
      by (assumption || (unfold INT_MAX; lia)).
    cbn [WaitKey_loop]. rewrite Hlen. reflexivity.
  - apply WaitKey_times_out_unplugged; assumption.
Qed.

End VolumesFacts.

Lemma WaitKey_refresh_on_notify_witness :
  (key_queue_len fresh_ui = 0 /\
   In notify_volumes_changed (wake_others back_key_and_notify)) /\
  exists st', WaitKey false 1080 1920 exact_scale [back_key_and_notify]
                (unplugged_after 0) fresh_ui = returns_kRefresh st' /\
              v_changed st' = 0 /\ key_queue_len st' = 1.
Proof.
  assert (H1 : key_queue_len fresh_ui = 0) by reflexivity.
  assert (H2 : In notify_volumes_changed (wake_others back_key_and_notify))
    by (right; right; left; reflexivity).
  split; [split; assumption |].
  eexists. split.
  - exact (WaitKey_refresh_on_notify false 1080 1920 exact_scale
             back_key_and_notify [] (unplugged_after 0) fresh_ui H1 H2).
  - split; reflexivity.
Defined.

Lemma WaitKey_gives_up_after_120_witness :
  (key_queue_len fresh_ui = 0 /\ v_changed fresh_ui = 0 /\
   fst (usb_connected (unplugged_after 0 120) fresh_ui) = false /\
   (119 < 120)%nat) /\
  WaitKey false 1080 1920 exact_scale (repeat timed_out 119)
    (unplugged_after 0) fresh_ui = still_waiting fresh_ui /\
  WaitKey false 1080 1920 exact_scale (repeat timed_out 120 ++ [])
    (unplugged_after 0) fresh_ui =
    returns (-1) (emit open_android_usb_state fresh_ui).
Proof.
  assert (H1 : key_queue_len fresh_ui = 0) by reflexivity.
  assert (H2 : v_changed fresh_ui = 0) by reflexivity.
  assert (H3 : fst (usb_connected (unplugged_after 0 120) fresh_ui) = false)
    by reflexivity.
  assert (H4 : (119 < 120)%nat) by lia.
  split; [repeat split; assumption |].
  exact (WaitKey_gives_up_after_120 false 1080 1920 exact_scale 119 []
           (unplugged_after 0) fresh_ui H1 H2 H3 H4).
Defined.

(** ** The swipe recogniser *)

Ltac Z_of_bool :=
  repeat match goal with
         | H : (_ <? _) = true |- _ => apply Z.ltb_lt in H
         | H : (_ <? _) = false |- _ => apply Z.ltb_ge in H
         | H : (_ =? _) = true |- _ => apply Z.eqb_eq in H
         | H : (_ =? _) = false |- _ => apply Z.eqb_neq in H
         end.

Section SwipeFacts.

Variables fb_w fb_h : Z.
Variable scale : Z -> Z -> Z -> Z.

(** The lazy query of the maxima changes the maxima only. *)
Lemma query_touch_maxima_keeps (fd : input_fd) (st : RecoveryUI) :
  min_x_swipe_px (query_touch_maxima fd st) = min_x_swipe_px st /\
  min_y_swipe_px (query_touch_maxima fd st) = min_y_swipe_px st /\
  diff_x (query_touch_maxima fd st) = diff_x st /\
  diff_y (query_touch_maxima fd st) = diff_y st /\
  mt_count (query_touch_maxima fd st) = mt_count st /\
  key_queue (query_touch_maxima fd st) = key_queue st /\
  key_queue_len (query_touch_maxima fd st) = key_queue_len st /\
  calls (query_touch_maxima fd st) = calls st.
Proof. unfold query_touch_maxima. split_ifs; repeat split. Qed.

Ltac after_query fd st :=
  unfold process_swipe; cbv zeta;
  destruct (query_touch_maxima_keeps fd st)
    as (Hq1 & Hq2 & Hq3 & Hq4 & Hq5 & Hq6 & Hq7 & Hq8);
  rewrite <- ?Hq1, <- ?Hq2, <- ?Hq3, <- ?Hq4, <- ?Hq5, <- ?Hq6, <- ?Hq7,
    <- ?Hq8 in *;
  clear Hq1 Hq2 Hq3 Hq4 Hq5 Hq6 Hq7 Hq8;
  generalize dependent (query_touch_maxima fd st); clear st; intros st.

(** After any [EV_SYN] event the accumulators are within the thresholds:
    either they were, or they have just been reset. *)
Lemma process_swipe_syn_settles (fd : input_fd) (ev : input_event)
    (st : RecoveryUI) :
  thresholds_ok st -> ev_type ev = EV_SYN ->
  thresholds_ok (process_swipe fb_w fb_h scale fd ev st) /\
  within_thresholds (process_swipe fb_w fb_h scale fd ev st).
Proof.
  unfold thresholds_ok, within_thresholds. after_query fd st.
  intros [Hx Hy] Hsyn.
  unfold EnqueueKey, reset_gestures.
  rewrite Hsyn. change (EV_SYN =? EV_KEY) with false.
  change (EV_SYN =? EV_SYN) with true. cbn [andb].
  unfold INT_MAX in *. cbn.
  rewrite (wrap32_in_range (- min_y_swipe_px st)),
    (wrap32_in_range (- min_x_swipe_px st))
    by (unfold INT_MIN, INT_MAX; lia).
  split_ifs; Z_of_bool; lia.
Qed.

(** With the accumulators within the thresholds an [EV_SYN] event queues
    nothing and calls nothing. *)
Lemma process_swipe_syn_quiet (fd : input_fd) (ev : input_event)
    (st : RecoveryUI) :
  thresholds_ok st -> within_thresholds st -> ev_type ev = EV_SYN ->
  key_queue (process_swipe fb_w fb_h scale fd ev st) = key_queue st /\
  key_queue_len (process_swipe fb_w fb_h scale fd ev st) = key_queue_len st /\
  calls (process_swipe fb_w fb_h scale fd ev st) = calls st.
Proof.
  unfold thresholds_ok, within_thresholds. after_query fd st.
  intros [Hx Hy] [Hdy Hdx] Hsyn.
  unfold EnqueueKey, reset_gestures.
  rewrite Hsyn. change (EV_SYN =? EV_KEY) with false.
  change (EV_SYN =? EV_SYN) with true. cbn [andb].
  unfold INT_MAX in *. cbn.
  rewrite (wrap32_in_range (- min_y_swipe_px st)),
    (wrap32_in_range (- min_x_swipe_px st))
    by (unfold INT_MIN, INT_MAX; lia).
  split_ifs; Z_of_bool; try lia; auto.
Qed.

(** X21 -- a swipe is reported once: whatever an [EV_SYN] event did, an
    [EV_SYN] event right after it queues no key and makes no call. *)
Theorem process_swipe_reports_once (fd fd' : input_fd) (ev ev' : input_event)
    (st : RecoveryUI) :
  thresholds_ok st -> ev_type ev = EV_SYN -> ev_type ev' = EV_SYN ->
  let st1 := process_swipe fb_w fb_h scale fd ev st in
  key_queue (process_swipe fb_w fb_h scale fd' ev' st1) = key_queue st1 /\
  key_queue_len (process_swipe fb_w fb_h scale fd' ev' st1) =
    key_queue_len st1 /\
  calls (process_swipe fb_w fb_h scale fd' ev' st1) = calls st1.
Proof.
  intros Hok Hsyn Hsyn' st1.
  destruct (process_swipe_syn_settles fd ev st Hok Hsyn) as [Hok1 Hwithin].
  apply process_swipe_syn_quiet; assumption.
Qed.

(** X22 -- the count of touch contacts never goes below zero. *)
Theorem process_swipe_mt_count_nonneg (fd : input_fd) (ev : input_event)
    (st : RecoveryUI) :
  0 <= mt_count st < INT_MAX ->
  0 <= mt_count (process_swipe fb_w fb_h scale fd ev st).
Proof.
  after_query fd st. intros Hm.
  unfold EnqueueKey, reset_gestures. unfold INT_MAX in *. cbn.
  split_ifs; Z_of_bool;
    rewrite ?wrap32_in_range by (unfold INT_MIN, INT_MAX; lia); lia.
Qed.

End SwipeFacts.

Lemma process_swipe_reports_once_witness :
  (thresholds_ok swiped_ui /\ ev_type syn_report = EV_SYN) /\
  key_queue_len (process_swipe 1080 1920 exact_scale no_abs_fd syn_report
                   swiped_ui) = 1 /\
  key_queue_len
    (process_swipe 1080 1920 exact_scale no_abs_fd syn_report
       (process_swipe 1080 1920 exact_scale no_abs_fd syn_report swiped_ui)) =
    key_queue_len
      (process_swipe 1080 1920 exact_scale no_abs_fd syn_report swiped_ui).
Proof.
  assert (H1 : thresholds_ok swiped_ui)
    by (vm_compute; repeat split; discriminate).
  assert (H2 : ev_type syn_report = EV_SYN) by reflexivity.
  split; [split; assumption |]. split; [reflexivity |].
  destruct (process_swipe_reports_once 1080 1920 exact_scale no_abs_fd
              no_abs_fd syn_report syn_report swiped_ui H1 H2 H2)
    as (_ & Hlen & _).
  exact Hlen.
Defined.

Lemma process_swipe_mt_count_nonneg_witness :
  0 <= mt_count fresh_ui < INT_MAX /\
  0 <= mt_count (process_swipe 1080 1920 exact_scale no_abs_fd
                   (mkEvent EV_KEY BTN_TOUCH KEY_UP) fresh_ui).
Proof.
  assert (H : 0 <= mt_count fresh_ui < INT_MAX)
    by (vm_compute; split; [discriminate | reflexivity]).
  split; [exact H |].
  exact (process_swipe_mt_count_nonneg 1080 1920 exact_scale no_abs_fd
           (mkEvent EV_KEY BTN_TOUCH KEY_UP) fresh_ui H).
Defined.

(** ** The event path and the queue *)

Lemma queue_wf_same (st st' : RecoveryUI) :
  key_queue st' = key_queue st -> key_queue_len st' = key_queue_len st ->
  queue_wf st -> queue_wf st'.
Proof. unfold queue_wf. intros -> ->. auto. Qed.

Lemma EnqueueKey_queue_wf (k : Z) (st : RecoveryUI) :
  queue_wf st -> queue_wf (EnqueueKey k st).
Proof.
  intros Hwf. unfold EnqueueKey.
  destruct (dialog_showing st) eqn:Hd.
  - destruct (dialog_dismissable st); [| exact Hwf].
    apply (queue_wf_same st); [reflexivity .. | exact Hwf].
  - destruct (key_queue_len st <? queue_max) eqn:Hlt; [| exact Hwf].
    apply Z.ltb_lt in Hlt.
    pose proof (EnqueueKey_queued_room k st Hwf Hd Hlt) as [_ H].
    unfold EnqueueKey in H. rewrite Hd in H.
    assert (Hlt' : (key_queue_len st <? queue_max) = true)
      by (apply Z.ltb_lt; exact Hlt).
    rewrite Hlt' in H. exact H.
Qed.

Lemma CheckKey_queue (k : Z) (st : RecoveryUI) :
  key_queue (snd (CheckKey k st)) = key_queue st /\
  key_queue_len (snd (CheckKey k st)) = key_queue_len st /\
  dialog_showing (snd (CheckKey k st)) = dialog_showing st.
Proof.
  unfold CheckKey, IsKeyPressed. cbn [fst snd]. split_ifs; auto.
Qed.

Lemma queue_wf_set_rel_sum (v : Z) (st : RecoveryUI) :
  queue_wf st -> queue_wf (set_rel_sum v st).
Proof. apply queue_wf_same; reflexivity. Qed.

Section EventFacts.

Variable no_mount : bool.
Variables fb_w fb_h : Z.
Variable scale : Z -> Z -> Z -> Z.

(** What [process_key] does up to the call of [EnqueueKey]: nothing to the
    queue or the dialog. *)
Ltac it_is_the_result :=
  match goal with
  | |- exists s, _ /\ _ /\ _ /\ (?t = s \/ _) => exists t
  end.

Lemma process_key_queue (k u : Z) (st : RecoveryUI) :
  exists s,
    key_queue s = key_queue st /\ key_queue_len s = key_queue_len st /\
    dialog_showing s = dialog_showing st /\
    (process_key no_mount k u st = s \/
     (process_key no_mount k u st = EnqueueKey k s /\
      u = 0 /\ key_last_down st = k)).
Proof.
  unfold process_key, process_key_locked.
  destruct (u =? 0) eqn:Hu; cbn [negb].
  2: { it_is_the_result. repeat split. left. reflexivity. }
  apply Z.eqb_eq in Hu.
  cbn [key_last_down set_key_pressed subscript set_accesses key_long_press].
  destruct (key_last_down st =? k) eqn:Hk.
  2: { it_is_the_result. repeat split. left. reflexivity. }
  apply Z.eqb_eq in Hk.
  with_CheckKey CheckKey_queue.
  match goal with H : _ /\ _ /\ _ |- _ => destruct H as (Hq & Hl & Hd) end.
  cbn in Hq, Hl, Hd.
  destruct action; cbv iota.
  - exists st_policy. auto.
  - it_is_the_result. repeat split; try assumption. left. reflexivity.
  - it_is_the_result. repeat split; try assumption. left. reflexivity.
  - exists st_policy. repeat split; try assumption. right. auto.
  - destruct no_mount.
    + exists st_policy. auto.
    + it_is_the_result. repeat split; try assumption. left. reflexivity.
Qed.

Lemma process_key_queue_wf (k u : Z) (st : RecoveryUI) :
  queue_wf st -> queue_wf (process_key no_mount k u st).
Proof.
  intros Hwf.
  destruct (process_key_queue k u st) as (s & Hq & Hl & _ & [-> | [-> _]]).
  - exact (queue_wf_same st s Hq Hl Hwf).
  - apply EnqueueKey_queue_wf. exact (queue_wf_same st s Hq Hl Hwf).
Qed.

Lemma process_swipe_queue_wf (fd : input_fd) (ev : input_event)
    (st : RecoveryUI) :
  queue_wf st -> queue_wf (process_swipe fb_w fb_h scale fd ev st).
Proof.
  intros Hwf.
  assert (Hq : queue_wf (query_touch_maxima fd st)).
  { destruct (query_touch_maxima_keeps fd st)
      as (_ & _ & _ & _ & _ & Hq & Hl & _).
    exact (queue_wf_same _ _ Hq Hl Hwf). }
  unfold process_swipe. cbv zeta. clear Hwf.
  generalize dependent (query_touch_maxima fd st). clear st.
  intros st Hwf.
  assert (Hreset : forall s, queue_wf s -> queue_wf (reset_gestures s)).
  { intros s. apply queue_wf_same; reflexivity. }
  assert (Htouch : forall s, queue_wf s -> queue_wf (set_in_touch 0 s)).
  { intros s. apply queue_wf_same; reflexivity. }
  assert (Henq : forall k s, queue_wf s -> queue_wf (EnqueueKey k s))
    by (intros k s; apply EnqueueKey_queue_wf).
  repeat match goal with
         | |- queue_wf (if ?c then _ else _) => destruct c
         | |- queue_wf (reset_gestures _) => apply Hreset
         | |- queue_wf (EnqueueKey _ _) => apply Henq
         | |- queue_wf (set_in_touch 0 _) => apply Htouch
         | |- queue_wf st => exact Hwf
         | |- queue_wf _ =>
             apply (queue_wf_same st); [reflexivity .. | exact Hwf]
         end.
Qed.

Lemma input_callback_queue_wf (fd : input_fd) (got : option input_event)
    (st : RecoveryUI) :
  queue_wf st ->
  queue_wf (snd (input_callback no_mount fb_w fb_h scale fd got st)).
Proof.
  intros Hwf. destruct got as [ev |]; [| exact Hwf].
  unfold input_callback.
  pose proof (process_swipe_queue_wf fd ev st Hwf) as Hsw.
  set (st1 := process_swipe fb_w fb_h scale fd ev st) in *. clearbody st1.
  destruct (ev_type ev =? EV_SYN); [exact Hsw |].
  unfold snd.
  assert (Hlast : forall s, queue_wf s ->
            queue_wf
              (if (ev_type ev =? EV_KEY) && (ev_code ev <=? KEY_MAX)
               then process_key no_mount (ev_code ev) (ev_value ev) s
               else s)).
  { intros s Hs. destruct (_ && _); [| exact Hs].
    apply process_key_queue_wf. exact Hs. }
  apply Hlast.
  destruct (ev_type ev =? EV_REL).
  - destruct (ev_code ev =? REL_Y); [| exact Hsw].
    assert (Hsum : forall v, queue_wf (set_rel_sum v st1))
      by (intros v; apply queue_wf_set_rel_sum; exact Hsw).
    destruct (3 <? _).
    { apply queue_wf_set_rel_sum. do 2 apply process_key_queue_wf.
      apply Hsum. }
    destruct (_ <? -3).
    { apply queue_wf_set_rel_sum. do 2 apply process_key_queue_wf.
      apply Hsum. }
    apply Hsum.
  - apply queue_wf_set_rel_sum. exact Hsw.
Qed.

(** X23 -- nothing the other threads do, except [CancelWaitKey], can push
    the queue out of its array: input events of any kind, timers, socket
    messages and volume notifications keep the array's size and keep the
    length between 0 and the capacity. *)
Theorem run_other_queue_wf (o : other_thread) (st : RecoveryUI) :
  o <> cancel_wait_key -> queue_wf st ->
  queue_wf (run_other no_mount fb_w fb_h scale o st).
Proof.
  intros Ho Hwf. destruct o; cbn [run_other].
  - apply input_callback_queue_wf. exact Hwf.
  - unfold time_key. split_ifs; [| exact Hwf].
    apply (queue_wf_same st); [reflexivity .. | exact Hwf].
  - destruct (message_socket_client_event_frame revents nread buf st)
      as (_ & l & -> & _).
    apply (queue_wf_same st); [reflexivity .. | exact Hwf].
  - congruence.
  - apply (queue_wf_same st); [reflexivity .. | exact Hwf].
Qed.

(** X24 -- trackball movements whose running sum stays between -3 and 3
    make up no key: the sum grows by their total and nothing is
    registered. *)
Theorem trackball_accumulates (fd : input_fd) (values : list Z) :
  forall st,
  sums_within (rel_sum st) values ->
  let st' :=
    fold_left
      (fun s v =>
         snd (input_callback no_mount fb_w fb_h scale fd (Some (trackball v))
                s)) values st in
  rel_sum st' = rel_sum st + sum_of values /\
  registered (calls st') = registered (calls st).
Proof.
  induction values as [| v values IH]; intros st Hsums; cbn [fold_left].
  - cbn [sum_of fold_right]. split; [lia | reflexivity].
  - destruct Hsums as [Hv Hrest].
    assert (Hwrap : wrap32 (rel_sum st + ev_value (trackball v)) =
                    rel_sum st + v).
    { cbn [trackball ev_value].
      apply wrap32_in_range. unfold INT_MIN, INT_MAX. lia. }
    destruct (input_callback_rel_y_within no_mount fb_w fb_h scale fd
                (trackball v) st eq_refl eq_refl) as [Hsum Hreg].
    { rewrite Hwrap. exact Hv. }
    rewrite Hwrap in Hsum.
    set (st1 := snd (input_callback no_mount fb_w fb_h scale fd
                       (Some (trackball v)) st)) in *.
    rewrite <- Hsum in Hrest. destruct (IH st1 Hrest) as [Hs Hr].
    cbv zeta in Hs, Hr. rewrite Hs, Hr, Hsum, Hreg.
    cbn [sum_of fold_right]. split; [unfold sum_of; lia | reflexivity].
Qed.

(** X25 -- one registration for each clean press and release, whatever came
    before; a second release in a row registers nothing more. *)
Theorem press_release_registers_once (k u : Z) (st : RecoveryUI) :
  u <> 0 -> k <> -1 ->
  registered (calls (process_key no_mount k 0 (process_key no_mount k u st)))
    = registered (calls st) ++ [k] /\
  registered
    (calls (process_key no_mount k 0
              (process_key no_mount k 0 (process_key no_mount k u st))))
    = registered (calls st) ++ [k].
Proof.
  intros Hu Hk. apply Z.eqb_neq in Hu.
  rewrite !process_key_registered, !process_key_key_last_down.
  rewrite Hu. change (0 =? 0) with true. cbn [andb]. rewrite Z.eqb_refl.
  assert (H : (-1 =? k) = false) by (apply Z.eqb_neq; lia).
  rewrite H, !app_nil_r. split; reflexivity.
Qed.

Lemma CheckKey_ordinary (k : Z) (st : RecoveryUI) :
  k <> KEY_POWER -> k <> KEY_VOLUMEUP -> k <> KEY_VOLUMEDOWN ->
  fst (CheckKey k st) = ENQUEUE.
Proof.
  intros H1 H2 H3. apply Z.eqb_neq in H1, H2, H3.
  unfold CheckKey, IsKeyPressed. cbn [fst snd].
  rewrite H1, H2, H3, andb_false_r. reflexivity.
Qed.

(** X26 -- a clean press and release of a key that is neither power nor a
    volume key, with no dialog showing and room in the queue, puts that
    key at the end of the queue. *)
Theorem ordinary_key_is_queued (k u : Z) (st : RecoveryUI) :
  u <> 0 ->
  k <> KEY_POWER -> k <> KEY_VOLUMEUP -> k <> KEY_VOLUMEDOWN ->
  queue_wf st -> dialog_showing st = false -> key_queue_len st < queue_max ->
  queued (process_key no_mount k 0 (process_key no_mount k u st)) =
    queued st ++ [k].
Proof.
  intros Hu H1 H2 H3 Hwf Hd Hroom.
  destruct (process_key_queue k u st)
    as (s1 & Hq1 & Hl1 & Hd1 & [E1 | (_ & Hu0 & _)]); [| congruence].
  pose proof (process_key_key_last_down no_mount k u st) as Hlast.
  apply Z.eqb_neq in Hu. rewrite Hu in Hlast. rewrite E1 in *.
  unfold process_key, process_key_locked.
  change (negb (0 =? 0)) with false. cbv iota.
  cbn [key_last_down set_key_pressed subscript set_accesses key_long_press].
  rewrite Hlast, Z.eqb_refl.
  match goal with
  | |- context [CheckKey k ?s] =>
      pose proof (CheckKey_ordinary k s H1 H2 H3) as Hact;
      destruct (CheckKey_queue k s) as (Hq2 & Hl2 & Hd2);
      destruct (CheckKey k s) as [action s2]
  end.
  cbn [fst snd] in *. subst action.
  cbn in Hq2, Hl2, Hd2.
  assert (Hwf2 : queue_wf s2).
  { apply (queue_wf_same st); [congruence .. | exact Hwf]. }
  destruct (EnqueueKey_queued_room k s2 Hwf2) as [Hqueued _];
    [congruence | lia |].
  rewrite Hqueued. unfold queued. rewrite Hq2, Hl2, Hq1, Hl1. reflexivity.
Qed.

End EventFacts.

Lemma run_other_queue_wf_witness :
  (key_timer_fires KEY_BACK 1 <> cancel_wait_key /\ queue_wf full_ui) /\
  queue_wf
    (run_other false 1080 1920 exact_scale
       (input_event_arrives no_abs_fd (Some (mkEvent EV_KEY KEY_BACK 0)))
       (run_other false 1080 1920 exact_scale
          (input_event_arrives no_abs_fd (Some (mkEvent EV_KEY KEY_BACK 1)))
          full_ui)).
Proof.
  assert (H1 : key_timer_fires KEY_BACK 1 <> cancel_wait_key)
    by discriminate.
  assert (H2 : queue_wf full_ui)
    by (split; [reflexivity | vm_compute; split; discriminate]).
  split; [split; assumption |].
  apply run_other_queue_wf; [discriminate |].
  apply run_other_queue_wf; [discriminate | exact H2].
Defined.

Lemma trackball_accumulates_witness :
  sums_within (rel_sum fresh_ui) [1; 1; -2; 3] /\
  rel_sum
    (fold_left
       (fun s v =>
          snd (input_callback false 1080 1920 exact_scale no_abs_fd
                 (Some (trackball v)) s)) [1; 1; -2; 3] fresh_ui) =
    rel_sum fresh_ui + sum_of [1; 1; -2; 3].
Proof.
  assert (H : sums_within (rel_sum fresh_ui) [1; 1; -2; 3])
    by (vm_compute; repeat split; discriminate).
  split; [exact H |].
  exact (proj1 (trackball_accumulates false 1080 1920 exact_scale no_abs_fd
                  [1; 1; -2; 3] fresh_ui H)).
Defined.

Lemma press_release_registers_once_witness :
  (1 <> 0 /\ KEY_BACK <> -1) /\
  registered
    (calls (process_key false KEY_BACK 0
              (process_key false KEY_BACK 1 fresh_ui))) =
    registered (calls fresh_ui) ++ [KEY_BACK].
Proof.
  assert (H1 : 1 <> 0) by discriminate.
  assert (H2 : KEY_BACK <> -1) by (vm_compute; discriminate).
  split; [split; assumption |].
  exact (proj1 (press_release_registers_once false KEY_BACK 1 fresh_ui
                  H1 H2)).
Defined.

Lemma ordinary_key_is_queued_witness :
  (1 <> 0 /\ KEY_BACK <> KEY_POWER /\ KEY_BACK <> KEY_VOLUMEUP /\
   KEY_BACK <> KEY_VOLUMEDOWN /\ queue_wf fresh_ui /\
   dialog_showing fresh_ui = false /\ key_queue_len fresh_ui < queue_max) /\
  queued (process_key false KEY_BACK 0
            (process_key false KEY_BACK 1 fresh_ui)) =
    queued fresh_ui ++ [KEY_BACK].
Proof.
  assert (H0 : 1 <> 0) by discriminate.
  assert (H1 : KEY_BACK <> KEY_POWER) by (vm_compute; discriminate).
  assert (H2 : KEY_BACK <> KEY_VOLUMEUP) by (vm_compute; discriminate).
  assert (H3 : KEY_BACK <> KEY_VOLUMEDOWN) by (vm_compute; discriminate).
  assert (H4 : queue_wf fresh_ui) by exact queue_wf_fresh_ui.
  assert (H5 : dialog_showing fresh_ui = false) by reflexivity.
  assert (H6 : key_queue_len fresh_ui < queue_max) by reflexivity.
  split; [exact (conj H0 (conj H1 (conj H2 (conj H3 (conj H4 (conj H5 H6))))))
         |].
  exact (ordinary_key_is_queued false KEY_BACK 1 fresh_ui
           H0 H1 H2 H3 H4 H5 H6).
Defined.
